(** * VcfFake (improvar): the record-synthesis engine, embedded and verified.

    The development follows [src/improvar/__init__.py]: the multiplicity
    resolver [calc_multiplicity], the value and genotype synthesizer
    [data_from_vcf_type], the contig selector [random_contig] and the record
    assembler [generate_record], and the driver [generate_data].  Python's
    process-global random source is threaded explicitly as a state; Python
    exceptions are an error type; the header and the records are seen as
    pysam reports them. *)

From stdpp Require Import base gmap strings list.
From Stdlib Require Import ZArith NArith Lia Permutation Sorted Ascii.

Open Scope string_scope.
Open Scope list_scope.
Open Scope Z_scope.

(** ** Exceptions and the random source *)

(** The exceptions the engine can raise, by Python class. *)
Inductive exn : Type :=
  | ValueError (msg : string)
  | Exception_ (msg : string)
  | NotImplementedError
  | AttributeError
  | TypeError
  | KeyError (key : string)
  | IndexError.

(** [random] keeps one generator per process.  A run of the program reads
    a sequence of raw draws from it; the sequence is arbitrary, the cursor
    is the state. *)
Record Rng : Type := mkRng { tape : nat -> N; cursor : nat }.

(** A computation over the random source that may raise. *)
Definition M (A : Type) : Type := Rng -> exn + (A * Rng).

Definition ret {A} (a : A) : M A := fun g => inr (a, g).
Definition raise {A} (e : exn) : M A := fun _ => inl e.
Definition bind {A B} (m : M A) (k : A -> M B) : M B :=
  fun g => match m g with
           | inl e => inl e
           | inr (a, g') => k a g'
           end.

Notation "'let*' x ':=' m 'in' k" := (bind m (fun x => k))
  (at level 10, x name, m at level 100, k at level 200, only parsing).

(** The source after one draw. *)
Definition advance (g : Rng) : Rng := mkRng (tape g) (S (cursor g)).

Definition next_raw : M N :=
  fun g => inr (tape g (cursor g), advance g).

(** [random._randbelow(n)] for [n > 0]: an index below [n]. *)
Definition randbelow (n : N) : M N :=
  let* r := next_raw in ret (r mod n)%N.

(** [random.random()]: a multiple of [2^-53] in [[0, 1)], kept as its
    numerator. *)
Definition random_random : M N :=
  let* r := next_raw in ret (r mod 2 ^ 53)%N.

(** [random.choice(seq)]: [IndexError] on an empty sequence. *)
Definition random_choice {A} (seq : list A) : M A :=
  match seq with
  | [] => raise IndexError
  | d :: _ =>
      let* i := randbelow (N.of_nat (length seq)) in
      ret (nth (N.to_nat i) seq d)
  end.

(** [random.randint(a, b)]: [a + randbelow(b - a + 1)], [ValueError] on an
    empty range (the message is given without the bounds). *)
Definition random_randint (a b : Z) : M Z :=
  if b <? a then raise (ValueError "empty range for randrange()")
  else let* i := randbelow (Z.to_N (b - a + 1)) in ret (a + Z.of_N i).

(** A natural number rounded to [bits] significant bits, a tie going to
    the even neighbour: what binary floating point does to the exact value
    of a product, away from overflow and underflow. *)
Definition round_half_even (bits p : N) : N :=
  let e := N.log2 p in
  if (e <? bits)%N then p
  else
    let s := (e + 1 - bits)%N in
    let q := (p / 2 ^ s)%N in
    let r := (p mod 2 ^ s)%N in
    let half := (2 ^ (s - 1))%N in
    let q' := if (half <? r)%N || ((r =? half)%N && N.odd q)
              then (q + 1)%N else q in
    (q' * 2 ^ s)%N.

(** [random.choices(population, k=k)]: each pick is
    [population[floor(random() * n)]].  The product is one of two binary64
    floats: the exact product of [r / 2^53] and [n], rounded to 53 bits.
    An index past the end is an [IndexError]. *)
Fixpoint random_choices {A} (population : list A) (k : nat) : M (list A) :=
  match k with
  | O => ret []
  | S k' =>
      let* r := random_random in
      let i :=
        (round_half_even 53 (r * N.of_nat (length population)) / 2 ^ 53)%N in
      match population !! N.to_nat i with
      | None => raise IndexError
      | Some x =>
          let* rest := random_choices population k' in
          ret (x :: rest)
      end
  end.

(** [x[i], x[j] = x[j], x[i]]: both reads, then the write at [i], then the
    write at [j]. *)
Definition swap {A} (i j : nat) (l : list A) : list A :=
  match l !! i, l !! j with
  | Some xi, Some xj => <[j := xi]> (<[i := xj]> l)
  | _, _ => l
  end.

(** [random.shuffle(x)]: for [i] from [len(x) - 1] down to [1], swap
    [x[i]] with [x[j]], [j = randbelow(i + 1)]. *)
Fixpoint shuffle_from {A} (i : nat) (x : list A) : M (list A) :=
  match i with
  | O => ret x
  | S i' =>
      let* j := randbelow (N.of_nat (S i)) in
      shuffle_from i' (swap i (N.to_nat j) x)
  end.

Definition random_shuffle {A} (x : list A) : M (list A) :=
  shuffle_from (length x - 1)%nat x.

(** [itertools.combinations_with_replacement(pool, r)] for [r >= 0], in the
    order itertools emits them. *)
Fixpoint cwr {A} (r : nat) (pool : list A) : list (list A) :=
  match r with
  | O => [[]]
  | S r' =>
      (fix go (p : list A) : list (list A) :=
         match p with
         | [] => []
         | x :: xs => map (cons x) (cwr r' (x :: xs)) ++ go xs
         end) pool
  end.

(** A negative [r] is a [ValueError]. *)
Definition combinations_with_replacement {A} (pool : list A) (r : Z)
  : M (list (list A)) :=
  if r <? 0 then raise (ValueError "r must be non-negative")
  else ret (cwr (Z.to_nat r) pool).

(** [range(a, b)] as a list of integers. *)
Definition range (a b : Z) : list Z :=
  map (fun i => a + Z.of_nat i) (seq 0 (Z.to_nat (b - a))).

(** ** Data model *)

Inductive GenotypeOption : Type := HOM_REF | HOM_ALT | HET.

(** What a caller can pass as [gt_opts]: [None], a member of the enum, or
    any other object (a bare string, say); Python checks nothing. *)
Inductive gt_value : Type :=
  | GtNone
  | GtEnum (o : GenotypeOption)
  | GtOther (obj : string).

(** [gt_opts == GenotypeOption.X]: enum members compare by identity. *)
Definition gt_is (v : gt_value) (o : GenotypeOption) : bool :=
  match v, o with
  | GtEnum HOM_REF, HOM_REF | GtEnum HOM_ALT, HOM_ALT | GtEnum HET, HET => true
  | _, _ => false
  end.

(** The [number] of a header line: an [int], or a [str] such as ['A'],
    ['R'], ['G'] or ['.']. *)
Inductive Number : Type :=
  | NumInt (n : Z)
  | NumStr (s : string).

(** The types pysam reports for a header line. *)
Inductive VcfType : Type := TFlag | TInteger | TFloat | TString.

(** The [type] attribute of a header line, a [str]. *)
Definition type_name (t : VcfType) : string :=
  match t with
  | TFlag => "Flag"
  | TInteger => "Integer"
  | TFloat => "Float"
  | TString => "String"
  end.

(** What pysam reports for a line that declares [Type=declared]: the
    header reader knows Integer, Float and Flag, and takes every other
    declaration, Character and String included, as String. *)
Definition pysam_type (declared : string) : VcfType :=
  if String.eqb declared "Integer" then TInteger
  else if String.eqb declared "Float" then TFloat
  else if String.eqb declared "Flag" then TFlag
  else TString.

Record FieldDef : Type := mkField { number : Number; vtype : VcfType }.

(** [definition.type] *)
Definition type (fd : FieldDef) : string := type_name (vtype fd).

(** A contig of the header.  pysam reports its length as a positive
    integer (held in 32 bits), or as [None] when the line gives none or 0. *)
Record Contig : Type := mkContig { name : string; length_ : option positive }.

(** A compiled pattern, seen through the one method the engine calls:
    [pattern.match(s)] is truthy when the pattern matches at the start of
    [s]. *)
Record Pattern : Type := mkPattern { pattern_match : string -> bool }.

(** [re.compile] of a literal: it matches the strings it is a prefix of. *)
Definition literal (p : string) : Pattern := mkPattern (String.prefix p).

(** The header: ordered mappings for INFO and FORMAT lines and contigs, and
    the sample names. *)
Record VariantHeader : Type := mkHeader {
  info : list (string * FieldDef);
  formats : list (string * FieldDef);
  contigs : list (string * Contig);
  samples : list string
}.

(** A Python value that [data_from_vcf_type] synthesizes: an [int], a
    [float] (by its numerator over [2^53]) or a [str]. *)
Inductive value : Type :=
  | VInt (n : Z)
  | VFloat (numerator : N)
  | VStr (s : string).

(** A record under assembly: its site, and what the assembler has assigned
    so far.  [rec_info] and [rec_samples] keep, for each key, the tuple that
    the assembler last passed to [record.info[key] = ...] or to
    [record.samples[sample][key] = ...], as it was passed: what pysam makes
    of it on its side (it checks the length against the field, keeps a
    float in 32 bits, hands a field of count 1 back as a single value) is
    not part of this record. *)
Record VariantRecord : Type := mkRecord {
  header : VariantHeader;
  contig : string;
  alleles : list string;
  start : Z;
  rec_info : list (string * list value);
  rec_samples : list (string * list (string * list value))
}.

(** [record.alts]: the alleles after the reference, or [None] for a record
    with fewer than two alleles. *)
Definition alts (record : VariantRecord) : option (list string) :=
  match alleles record with
  | _ :: alt :: rest => Some (alt :: rest)
  | _ => None
  end.

(** [mapping[key]], [KeyError] when the key is absent. *)
Fixpoint assoc {V} (key : string) (m : list (string * V)) : option V :=
  match m with
  | [] => None
  | (k, v) :: rest => if String.eqb k key then Some v else assoc key rest
  end.

Definition getitem {A V} (m : list (string * V)) (key : string) (f : V -> A) : M A :=
  match assoc key m with
  | Some v => ret (f v)
  | None => raise (KeyError key)
  end.

(** [mapping[key] = v]: replace in place or append. *)
Fixpoint setitem {V} (key : string) (v : V) (m : list (string * V)) : list (string * V) :=
  match m with
  | [] => [(key, v)]
  | (k, w) :: rest =>
      if String.eqb k key then (k, v) :: rest else (k, w) :: setitem key v rest
  end.

(** [record.header.formats if section == 'fmt' else record.header.info] *)
Definition section_fields (record : VariantRecord) (section : string)
  : list (string * FieldDef) :=
  if String.eqb section "fmt" then formats (header record)
  else info (header record).

(** ** The engine *)

(** [calc_multiplicity]: [Some n] for a count, [None] for Python's [None];
    [len(None)] is a [TypeError]. *)
Definition calc_multiplicity (key : string) (record : VariantRecord)
  (section : string) : M (option Z) :=
  let* header_mult := getitem (section_fields record section) key number in
  if String.eqb key "GT" then ret (Some 1)
  else match header_mult with
       | NumInt n => ret (Some n)
       | NumStr s =>
           if String.eqb s "A" then
             match alts record with
             | Some a => ret (Some (Z.of_nat (length a)))
             | None => raise TypeError
             end
           else if String.eqb s "R" then ret (Some (Z.of_nat (length (alleles record))))
           else if String.eqb s "." then ret None
           else raise NotImplementedError
       end.

(** [string.ascii_uppercase + string.ascii_lowercase] *)
Definition char_set : list ascii :=
  String.list_ascii_of_string "ABCDEFGHIJKLMNOPQRSTUVWXYZabcdefghijklmnopqrstuvwxyz".

(** The genotype branch of [data_from_vcf_type] (lines 110 to 127). *)
Definition genotype (record : VariantRecord) (gt_opts : gt_value) : M (list value) :=
  let n := Z.of_nat (length (alleles record)) in
  let* gt :=
    if gt_is gt_opts HET then
      let* combos := combinations_with_replacement (range 1 n) (n - 1) in
      let* combo := random_choice combos in
      random_shuffle (0 :: combo)
    else if gt_is gt_opts HOM_ALT then ret (repeat 1 (length (alleles record)))
    else if gt_is gt_opts HOM_REF then ret (repeat 0 (length (alleles record)))
    else
      let* combos := combinations_with_replacement (range 0 n) n in
      random_choice combos
  in ret (map VInt gt).

(** One pass of the loop body (lines 132 to 141): five independent [if]s. *)
Definition synth_element (type : string) (results : list value) : M (list value) :=
  let* results :=
    if String.eqb type "Integer"
    then let* v := random_randint 0 100 in ret (results ++ [VInt v])
    else ret results in
  let* results :=
    if String.eqb type "Float"
    then let* v := random_random in ret (results ++ [VFloat v])
    else ret results in
  let* results :=
    if String.eqb type "Flag" then raise NotImplementedError else ret results in
  let* results :=
    if String.eqb type "Character"
    then let* c := random_choice char_set in
         ret (results ++ [VStr (String c EmptyString)])
    else ret results in
  if String.eqb type "String"
  then let* cs := random_choices char_set 10 in
       ret (results ++ [VStr (String.string_of_list_ascii cs)])
  else ret results.

(** [for i in range(n): body] over the accumulated [results]. *)
Fixpoint for_range (n : nat) (body : list value -> M (list value))
  (results : list value) : M (list value) :=
  match n with
  | O => ret results
  | S n' => let* results := body results in for_range n' body results
  end.

(** [range(multiplicity)]: [None] is not an integer. *)
Definition range_count (multiplicity : option Z) : M nat :=
  match multiplicity with
  | None => raise TypeError
  | Some n => ret (Z.to_nat n)
  end.

Definition data_from_vcf_type (key : string) (record : VariantRecord)
  (section : string) (gt_opts : gt_value) : M (list value) :=
  let* multiplicity := calc_multiplicity key record section in
  let* type := getitem (section_fields record section) key type in
  if String.eqb section "fmt" && String.eqb key "GT" then genotype record gt_opts
  else
    let* n := range_count multiplicity in
    for_range n (synth_element type) [].

Definition bases : list string := ["A"; "T"; "C"; "G"; "N"].

Definition random_base : M string := random_choice bases.

(** [pattern.match(s)] on an argument that may be [None]. *)
Definition method_match (pattern : option Pattern) (s : string) : M bool :=
  match pattern with
  | None => raise AttributeError
  | Some p => ret (pattern_match p s)
  end.

(** [[c for c in cs if pattern.match(c)]] *)
Fixpoint matching (pattern : option Pattern) (cs : list string) : M (list string) :=
  match cs with
  | [] => ret []
  | c :: rest =>
      let* b := method_match pattern c in
      let* tl := matching pattern rest in
      ret (if b then c :: tl else tl)
  end.

(** [[mapping[key] for key in keys]] *)
Fixpoint getitems {V} (m : list (string * V)) (keys : list string) : M (list V) :=
  match keys with
  | [] => ret []
  | k :: rest =>
      let* v := getitem m k id in
      let* vs := getitems m rest in
      ret (v :: vs)
  end.

Definition is_not_None {A} (o : option A) : bool :=
  match o with Some _ => true | None => false end.

(** [random_contig].  The Python [set] is a [gset], here [names]; a
    comprehension over it visits [elements] of it (Python fixes no order
    for a set, and nothing below depends on one).  The [ValueError] message
    is given without its inner quotation marks. *)
Definition random_contig (header : VariantHeader)
  (contig_exclude contig_include : option Pattern) : M Contig :=
  let names : gset string := list_to_set (map fst (contigs header)) in
  if is_not_None contig_exclude && is_not_None contig_include then
    raise (ValueError
      "Only one of contig_exclude and contig_include should be set!")
  else
    let* names :=
      if is_not_None contig_exclude then
        let* hit := matching contig_exclude (elements names) in
        ret (names ∖ list_to_set hit)
      else ret names in
    let* names :=
      if is_not_None contig_include then
        let* hit := matching contig_exclude (elements names) in
        ret (names ∩ list_to_set hit)
      else ret names in
    if (size names =? 0)%nat then
      raise (Exception_
        "Your contig options are too restrictive and have resulted in no valid contigs!")
    else
      let* candidates := getitems (contigs header) (elements names) in
      random_choice candidates.

(** [header.new_record(contig=..., alleles=..., start=...)]: no INFO value
    yet, and an empty mapping for each sample of the header. *)
Definition new_record (header : VariantHeader) (contig : string)
  (alleles : list string) (start : Z) : VariantRecord :=
  mkRecord header contig alleles start [] (map (fun s => (s, [])) (samples header)).

(** [record.info[key] = v], as the assembler issues it. *)
Definition set_info (record : VariantRecord) (key : string) (v : list value)
  : VariantRecord :=
  mkRecord (header record) (contig record) (alleles record) (start record)
    (setitem key v (rec_info record)) (rec_samples record).

(** [record.samples[sample][key] = v], as the assembler issues it. *)
Definition set_sample (record : VariantRecord) (sample key : string)
  (v : list value) : VariantRecord :=
  let old := match assoc sample (rec_samples record) with
             | Some m => m
             | None => []
             end in
  mkRecord (header record) (contig record) (alleles record) (start record)
    (rec_info record) (setitem sample (setitem key v old) (rec_samples record)).

(** The INFO loop of [generate_record] (lines 189 to 192). *)
Fixpoint add_info (keys : list string) (gt_opts : gt_value)
  (record : VariantRecord) : M VariantRecord :=
  match keys with
  | [] => ret record
  | key :: rest =>
      if String.eqb key "END" then add_info rest gt_opts record
      else
        let* v := data_from_vcf_type key record "info" gt_opts in
        add_info rest gt_opts (set_info record key v)
  end.

(** The inner FORMAT loop (lines 196 and 197), for one sample. *)
Fixpoint add_formats (sample : string) (keys : list string) (gt_opts : gt_value)
  (record : VariantRecord) : M VariantRecord :=
  match keys with
  | [] => ret record
  | key :: rest =>
      let* v := data_from_vcf_type key record "fmt" gt_opts in
      add_formats sample rest gt_opts (set_sample record sample key v)
  end.

(** The outer loop over samples (line 195). *)
Fixpoint add_samples (names fmt_keys : list string) (gt_opts : gt_value)
  (record : VariantRecord) : M VariantRecord :=
  match names with
  | [] => ret record
  | sample :: rest =>
      let* record := add_formats sample fmt_keys gt_opts record in
      add_samples rest fmt_keys gt_opts record
  end.

(** [random.randint(1, contig.length)]: with a length of [None] the upper
    bound cannot be computed, a [TypeError]. *)
Definition randint_1_to (length : option positive) : M Z :=
  match length with
  | Some len => random_randint 1 (Z.pos len)
  | None => raise TypeError
  end.

Definition generate_record (header : VariantHeader)
  (contig_exclude contig_include : option Pattern) (gt_opts : gt_value)
  : M VariantRecord :=
  let* contig := random_contig header contig_exclude contig_include in
  let* ref := random_base in
  let* alt := random_base in
  let* start := randint_1_to (length_ contig) in
  let record := new_record header (name contig) [ref; alt] start in
  let* record := add_info (map fst (info header)) gt_opts record in
  add_samples (map fst (rec_samples record)) (map fst (formats header))
    gt_opts record.

(** The per-sample genotype test of [data_from_vcf_type]. *)
Definition is_genotype (section key : string) : bool :=
  String.eqb section "fmt" && String.eqb key "GT".

(** The types the docstring of [data_from_vcf_type] lists. *)
Definition vcf_types : list string :=
  ["Integer"; "Float"; "Flag"; "Character"; "String"].

(** ** Sample inputs *)

(** A header with a usual flag ([Number=0]), a line XX that declares the
    type Weird, and two samples. *)
Definition demo_header : VariantHeader :=
  mkHeader
    [("DP", mkField (NumInt 1) TInteger);
     ("DB", mkField (NumInt 0) TFlag);
     ("XX", mkField (NumInt 2) (pysam_type "Weird"));
     ("END", mkField (NumInt 1) TInteger)]
    [("GT", mkField (NumInt 1) TString);
     ("AD", mkField (NumStr "R") TInteger);
     ("PL", mkField (NumStr "G") TInteger);
     ("FL", mkField (NumInt 2) TFloat)]
    [("chr1", mkContig "chr1" (Some 1000%positive)); ("chr2", mkContig "chr2" (Some 500%positive))]
    ["S1"; "S2"].

(** A biallelic record over [demo_header], as [generate_record] builds them. *)
Definition demo_record : VariantRecord :=
  new_record demo_header "chr1" ["A"; "C"] 25.

(** A header with one contig and nothing else. *)
Definition bare_header : VariantHeader :=
  mkHeader [] [] [("chr1", mkContig "chr1" (Some 1000%positive))] [].

(** The base a raw draw selects in [random_base]. *)
Definition base_of_draw (d : N) : string :=
  nth (N.to_nat (d mod 5)) bases "A".

(** A random source whose draws are all [d]. *)
Definition constant_rng (d : N) : Rng := mkRng (fun _ => d) 0.

(** A random source that answers [a] to the second draw, [b] to the third
    and [0] to the others. *)
Definition two_draws (a b : N) : Rng :=
  mkRng (fun i => match i with 1%nat => a | 2%nat => b | _ => 0%N end) 0.

(** ** The generation driver and the mode option *)

(** The loop of [generate_data] (lines 211 to 213) over the records written
    so far: a record is written as soon as it is assembled, and an
    exception ends the run with what was written before it. *)
Fixpoint generate_loop (n : nat) (header : VariantHeader)
  (contig_exclude contig_include : option Pattern) (gt_opts : gt_value)
  (written : list VariantRecord) (g : Rng)
  : list VariantRecord * (exn + Rng) :=
  match n with
  | O => (written, inr g)
  | S n' =>
      match generate_record header contig_exclude contig_include gt_opts g with
      | inl e => (written, inl e)
      | inr (record, g') =>
          generate_loop n' header contig_exclude contig_include gt_opts
            (written ++ [record]) g'
      end
  end.

(** [generate_data] on the parsed header of the template: the records
    written to the output, and the exception or the final random source.
    [range(num_variants)] is empty for a negative count. *)
Definition generate_data (header : VariantHeader) (num_variants : Z)
  (contig_exclude contig_include : option Pattern) (gt_opts : gt_value)
  (g : Rng) : list VariantRecord * (exn + Rng) :=
  generate_loop (Z.to_nat num_variants) header contig_exclude contig_include
    gt_opts [] g.

(** [member.value] for the members of [GenotypeOption] (lines 19 to 22). *)
Definition GenotypeOption_value (o : GenotypeOption) : string :=
  match o with
  | HOM_REF => "hom-ref"
  | HOM_ALT => "hom-alt"
  | HET => "het"
  end.

(** [GenotypeOption(s)], the conversion [--gt-opts] applies to its argument:
    the member with that value, or a [ValueError]. *)
Definition GenotypeOption_of_value (s : string) : exn + GenotypeOption :=
  if String.eqb s "hom-ref" then inr HOM_REF
  else if String.eqb s "hom-alt" then inr HOM_ALT
  else if String.eqb s "het" then inr HET
  else inl (ValueError "not a valid GenotypeOption").

(** A header every field of which can be synthesized: an integer count and
    the reserved END among the INFO lines, the genotype and a per-allele
    field for two samples. *)
Definition plain_header : VariantHeader :=
  mkHeader
    [("DP", mkField (NumInt 1) TInteger);
     ("END", mkField (NumInt 1) TInteger)]
    [("GT", mkField (NumInt 1) TString);
     ("AD", mkField (NumStr "R") TInteger)]
    [("chr1", mkContig "chr1" (Some 1000%positive)); ("chr2", mkContig "chr2" (Some 500%positive))]
    ["S1"; "S2"].

(** The names [random_contig] keeps when no include pattern is given: all
    the names of the header, less those the exclude pattern matches. *)
Definition kept_names (header : VariantHeader) (contig_exclude : option Pattern)
  : gset string :=
  let names : gset string := list_to_set (map fst (contigs header)) in
  match contig_exclude with
  | None => names
  | Some p => names ∖ list_to_set (List.filter (pattern_match p) (elements names))
  end.

(** A name of the header that the exclude pattern, if any, does not match. *)
Definition eligible (header : VariantHeader) (contig_exclude : option Pattern)
  (k : string) : Prop :=
  In k (map fst (contigs header)) /\
  forall p, contig_exclude = Some p -> pattern_match p k = false.

Definition no_valid_contigs : exn :=
  Exception_
    "Your contig options are too restrictive and have resulted in no valid contigs!".

(** The draws a computation makes: the distance between two cursors. *)
Definition draws (g g' : Rng) : nat := (cursor g' - cursor g)%nat.

(** An ASCII letter, by its code: A to Z or a to z. *)
Definition is_letter (c : ascii) : Prop :=
  (65 <= nat_of_ascii c <= 90)%nat \/ (97 <= nat_of_ascii c <= 122)%nat.

(** A string of ASCII letters only. *)
Definition letters (s : string) : Prop :=
  Forall is_letter (String.list_ascii_of_string s).

(** What a value of a field that pysam reports with the type [ty] looks
    like: an integer from 0 to 100, a multiple of [2^-53] below 1, or ten
    letters. *)
Definition well_typed (ty : string) (v : value) : Prop :=
  match v with
  | VInt n => ty = "Integer" /\ 0 <= n <= 100
  | VFloat k => ty = "Float" /\ (k < 2 ^ 53)%N
  | VStr s => ty = "String" /\ String.length s = 10%nat /\ letters s
  end.

(** The draws one value of type [ty] costs. *)
Definition draws_per_value (ty : string) : nat :=
  if String.eqb ty "String" then 10%nat else 1%nat.

(** Two records at the same site: same header, contig, alleles and start. *)
Definition same_site (r r' : VariantRecord) : Prop :=
  header r' = header r /\ contig r' = contig r /\
  alleles r' = alleles r /\ start r' = start r.

(** The tuple assigned to [record.samples[s][f]], when there is one. *)
Definition sample_value (record : VariantRecord) (s f : string)
  : option (list value) :=
  match assoc s (rec_samples record) with
  | Some m => assoc f m
  | None => None
  end.

(** The genotypes a mode can give on a biallelic record. *)
Definition biallelic_outcomes (gt_opts : gt_value) : list (list value) :=
  match gt_opts with
  | GtEnum HOM_REF => [[VInt 0; VInt 0]]
  | GtEnum HOM_ALT => [[VInt 1; VInt 1]]
  | GtEnum HET => [[VInt 0; VInt 1]; [VInt 1; VInt 0]]
  | _ => [[VInt 0; VInt 0]; [VInt 0; VInt 1]; [VInt 1; VInt 1]]
  end.

(** The record [generate_record] assembles over [plain_header] under
    HOM_REF when every draw is 1. *)
Definition plain_record : VariantRecord :=
  mkRecord plain_header "chr2" ["T"; "T"] 2 [("DP", [VInt 1])]
    [("S1", [("GT", [VInt 0; VInt 0]); ("AD", [VInt 1; VInt 1])]);
     ("S2", [("GT", [VInt 0; VInt 0]); ("AD", [VInt 1; VInt 1])])].

(** A header whose only contig line gives no length. *)
Definition unsized_contig_header : VariantHeader :=
  mkHeader [] [] [("chrU", mkContig "chrU" None)] [].

(** A header with a per-alt, a per-allele, an unbounded and a per-genotype
    count, a record with three alleles over it, and one with the reference
    allele alone. *)
Definition counts_header : VariantHeader :=
  mkHeader
    [("AC", mkField (NumStr "A") TInteger);
     ("XS", mkField (NumStr ".") TString);
     ("NS", mkField (NumInt 4) TInteger)]
    [("GT", mkField (NumStr "G") TString);
     ("AD", mkField (NumStr "R") TInteger);
     ("PL", mkField (NumStr "G") TInteger)]
    [("chr1", mkContig "chr1" (Some 1000%positive))]
    ["S1"].

Definition triallelic_record : VariantRecord :=
  new_record counts_header "chr1" ["A"; "C"; "G"] 7.

Definition ref_only_record : VariantRecord :=
  new_record counts_header "chr1" ["A"] 7.

(** What every written record satisfies: it is over the header, has two
    alleles, each one of the symbols A, T, C, G, N, and starts at 1 or
    later. *)
Definition well_formed (hdr : VariantHeader) (record : VariantRecord) : Prop :=
  header record = hdr /\
  length (alleles record) = 2%nat /\
  Forall (fun a => In a ["A"; "T"; "C"; "G"; "N"]) (alleles record) /\
  1 <= start record.

(** ** Reasoning about computations *)

Lemma bind_inr {A B} (m : M A) (k : A -> M B) g b g' :
  bind m k g = inr (b, g') ->
  exists a g1, m g = inr (a, g1) /\ k a g1 = inr (b, g').
Proof.
  unfold bind. destruct (m g) as [e | [a g1]]; [discriminate |].
  intros H. exists a, g1. split; [reflexivity | exact H].
Qed.

Lemma bind_run {A B} (m : M A) (k : A -> M B) g a g1 :
  m g = inr (a, g1) -> bind m k g = k a g1.
Proof. intros H. unfold bind. rewrite H. reflexivity. Qed.

Lemma bind_fail {A B} (m : M A) (k : A -> M B) g e :
  m g = inl e -> bind m k g = inl e.
Proof. intros H. unfold bind. rewrite H. reflexivity. Qed.

Ltac inv_bind H :=
  let a := fresh "a" in
  let g1 := fresh "g" in
  let H1 := fresh H in
  apply bind_inr in H; destruct H as (a & g1 & H1 & H).

Ltac inv_ret H :=
  unfold ret in H; injection H as H; subst.

Lemma getitem_run {A V} (m : list (string * V)) key (f : V -> A) v g :
  assoc key m = Some v -> getitem m key f g = inr (f v, g).
Proof. intros H. unfold getitem. rewrite H. reflexivity. Qed.

Lemma getitem_inr {A V} (m : list (string * V)) key (f : V -> A) a g g' :
  getitem m key f g = inr (a, g') ->
  exists v, assoc key m = Some v /\ a = f v /\ g' = g.
Proof.
  unfold getitem. destruct (assoc key m) as [v |]; [| discriminate].
  intros H. inv_ret H. exists v. auto.
Qed.

(** [calc_multiplicity] once the header lookup succeeds. *)
Lemma calc_multiplicity_run key record section fd g :
  assoc key (section_fields record section) = Some fd ->
  calc_multiplicity key record section g
  = if String.eqb key "GT" then inr (Some 1, g)
    else match number fd with
         | NumInt n => inr (Some n, g)
         | NumStr s =>
             if String.eqb s "A"
             then match alts record with
                  | Some a => inr (Some (Z.of_nat (length a)), g)
                  | None => inl TypeError
                  end
             else if String.eqb s "R"
             then inr (Some (Z.of_nat (length (alleles record))), g)
             else if String.eqb s "." then inr (None, g)
             else inl NotImplementedError
         end.
Proof.
  intros Hfd. unfold calc_multiplicity.
  rewrite (bind_run _ _ _ _ _ (getitem_run _ _ number _ g Hfd)).
  destruct (String.eqb key "GT"); [reflexivity |].
  destruct (number fd) as [n | s]; [reflexivity |].
  destruct (String.eqb s "A"); [destruct (alts record); reflexivity |].
  destruct (String.eqb s "R"); [reflexivity |].
  destruct (String.eqb s "."); reflexivity.
Qed.

(** [record.alts] is there from two alleles on, with one entry fewer than
    [record.alleles]. *)
Lemma alts_spec record :
  match alts record with
  | Some a =>
      (2 <= length (alleles record))%nat /\
      length a = (length (alleles record) - 1)%nat
  | None => (length (alleles record) < 2)%nat
  end.
Proof.
  unfold alts. destruct (alleles record) as [| r [| a rest]]; simpl; lia.
Qed.

(** ** The multiplicity resolver *)




(** ** The contig selector *)

(** C9: with both patterns supplied, [random_contig] raises the
    [ValueError], whatever the header, the patterns and the random source;
    no contig is returned and no draw is made. *)
Theorem random_contig_both_patterns header exclude include g :
  random_contig header (Some exclude) (Some include) g
  = inl (ValueError
      "Only one of contig_exclude and contig_include should be set!").
Proof. reflexivity. Qed.

Lemma matching_None_cons c cs g :
  matching None (c :: cs) g = inl AttributeError.
Proof. reflexivity. Qed.

(** With the include pattern alone, line 163 calls [match] on
    [contig_exclude], which is [None]: the first contig name visited raises
    [AttributeError]; a header without contigs reaches the emptiness test. *)
Lemma random_contig_include_only header include g :
  random_contig header None (Some include) g
  = inl (match contigs header with
         | [] => Exception_
             "Your contig options are too restrictive and have resulted in no valid contigs!"
         | _ :: _ => AttributeError
         end).
Proof.
  unfold random_contig. cbn [is_not_None andb].
  destruct (contigs header) as [| [k c] rest] eqn:E.
  - reflexivity.
  - cbn [map fst list_to_set].
    destruct (elements ({[k]} ∪ list_to_set (map fst rest) : gset string))
      as [| x xs] eqn:El.
    + apply elements_empty_inv in El.
      exfalso. revert El. clear. set_solver.
    + unfold bind at 1. unfold ret at 1. cbn beta iota.
      unfold bind at 1. unfold bind at 1. rewrite El.
      rewrite matching_None_cons. reflexivity.
Qed.

(** C1: the header has the single contig chr1 and the include pattern chr
    matches it at its start, yet the selector raises [AttributeError]
    instead of returning chr1. *)
Theorem random_contig_include_chr1_fails g :
  random_contig bare_header None (Some (literal "chr")) g = inl AttributeError.
Proof. apply (random_contig_include_only bare_header). Qed.

(** ** Rounding and the random primitives *)

Lemma round_half_even_le_half (bits p : N) :
  (round_half_even bits p
   <= p + (if (N.log2 p <? bits)%N then 0 else 2 ^ (N.log2 p - bits)))%N.
Proof.
  unfold round_half_even.
  destruct (N.log2 p <? bits)%N eqn:E; [lia |].
  apply N.ltb_ge in E.
  set (s := (N.log2 p + 1 - bits)%N).
  replace (N.log2 p - bits)%N with (s - 1)%N by lia.
  assert (2 ^ s = 2 * 2 ^ (s - 1))%N as HT.
  { replace s with (N.succ (s - 1)) at 1 by lia. apply N.pow_succ_r'. }
  assert (0 < 2 ^ (s - 1))%N as Hhalf by (apply N.neq_0_lt_0, N.pow_nonzero; discriminate).
  pose proof (N.div_mod p (2 ^ s) ltac:(lia)) as Hp.
  pose proof (N.mod_lt p (2 ^ s) ltac:(lia)) as Hr.
  revert HT Hhalf Hp Hr.
  generalize (2 ^ s)%N (2 ^ (s - 1))%N (p / 2 ^ s)%N (p mod 2 ^ s)%N.
  intros T half q r HT Hhalf Hp Hr.
  destruct ((half <? r)%N || ((r =? half)%N && N.odd q)) eqn:Eup.
  - assert (half <= r)%N as Hge.
    { apply orb_true_iff in Eup as [H | H].
      - apply N.ltb_lt in H. lia.
      - apply andb_true_iff in H as [H _]. apply N.eqb_eq in H. lia. }
    rewrite N.mul_add_distr_r, N.mul_1_l, (N.mul_comm q T). lia.
  - rewrite (N.mul_comm q T). lia.
Qed.

(** With the 52 letters of [char_set] the index of a pick is in range,
    whatever the draw. *)
Lemma choices_index_in_range (r : N) :
  (r < 2 ^ 53)%N -> (round_half_even 53 (r * 52) / 2 ^ 53 < 52)%N.
Proof.
  intros Hr. apply N.Div0.div_lt_upper_bound.
  pose proof (round_half_even_le_half 53 (r * 52)) as Hle.
  destruct (N.log2 (r * 52) <? 53)%N eqn:E.
  - change (2 ^ 53)%N with 9007199254740992%N in *. lia.
  - apply N.ltb_ge in E.
    assert (0 < r * 52)%N as Hpos.
    { destruct (N.eq_dec (r * 52) 0) as [H0 | H0]; [| lia].
      rewrite H0 in E. simpl in E. lia. }
    assert (N.log2 (r * 52) < 59)%N as Hlog.
    { apply N.log2_lt_pow2; [exact Hpos |].
      change (2 ^ 53)%N with 9007199254740992%N in Hr.
      change (2 ^ 59)%N with 576460752303423488%N. lia. }
    assert (2 ^ (N.log2 (r * 52) - 53) <= 2 ^ 5)%N as Hpow
      by (apply N.pow_le_mono_r; [discriminate | lia]).
    change (2 ^ 5)%N with 32%N in Hpow.
    change (2 ^ 53)%N with 9007199254740992%N in *. lia.
Qed.

Lemma random_choice_ok {A} (l : list A) g :
  l <> [] -> exists x, random_choice l g = inr (x, advance g) /\ In x l.
Proof.
  destruct l as [| d l']; [congruence | intros _].
  eexists. split; [reflexivity |].
  apply nth_In.
  assert (tape g (cursor g) mod N.of_nat (length (d :: l'))
          < N.of_nat (length (d :: l')))%N as Hlt.
  { apply N.mod_lt. simpl. lia. }
  lia.
Qed.

Lemma char_set_letters : Forall is_letter char_set.
Proof.
  unfold char_set. cbn [String.list_ascii_of_string].
  repeat (apply List.Forall_cons; [unfold is_letter; vm_compute; lia |]).
  apply List.Forall_nil.
Qed.

Lemma string_length_of_list cs :
  String.length (String.string_of_list_ascii cs) = length cs.
Proof. induction cs as [| c cs IH]; simpl; [reflexivity | f_equal; exact IH]. Qed.

(** [random.choices] over [char_set] makes [k] draws and returns [k]
    letters. *)
Lemma random_choices_char_set k g :
  exists cs g',
    random_choices char_set k g = inr (cs, g') /\
    length cs = k /\ Forall is_letter cs /\
    tape g' = tape g /\ cursor g' = (cursor g + k)%nat.
Proof.
  revert g. induction k as [| k IH]; intros g.
  - exists [], g. repeat split; [constructor | lia].
  - destruct (IH (advance g)) as (cs & g' & Hrun & Hlen & Hall & Htape & Hcur).
    assert (tape g (cursor g) mod 2 ^ 53 < 2 ^ 53)%N as Hr
      by (apply N.mod_lt; discriminate).
    pose proof (choices_index_in_range _ Hr) as Hi.
    destruct (lookup_lt_is_Some_2 char_set
                (N.to_nat (round_half_even 53
                   (tape g (cursor g) mod 2 ^ 53 * 52) / 2 ^ 53)))
      as [c Hc].
    { change (length char_set) with 52%nat. lia. }
    exists (c :: cs), g'. split; [| split; [| split; [| split]]].
    + cbn [random_choices]. unfold bind at 1.
      unfold random_random, bind, next_raw, ret. cbn beta iota.
      change (N.of_nat (length char_set)) with 52%N.
      rewrite Hc. unfold bind in Hrun |- *. rewrite Hrun. reflexivity.
    + simpl. f_equal. exact Hlen.
    + constructor; [| exact Hall].
      apply (proj1 (Forall_forall _ _) char_set_letters).
      apply list_elem_of_lookup. eauto.
    + exact Htape.
    + rewrite Hcur. simpl. lia.
Qed.

(** ** The value synthesizer *)

Lemma calc_multiplicity_pure key record section g m g' :
  calc_multiplicity key record section g = inr (m, g') -> g' = g.
Proof.
  unfold calc_multiplicity. intros H.
  apply bind_inr in H as (hm & g1 & Hget & H).
  apply getitem_inr in Hget as (fd & _ & -> & ->).
  destruct (String.eqb key "GT"); [inv_ret H; reflexivity |].
  destruct (number fd) as [n | s]; [inv_ret H; reflexivity |].
  destruct (String.eqb s "A").
  { destruct (alts record); [inv_ret H; reflexivity | discriminate H]. }
  destruct (String.eqb s "R"); [inv_ret H; reflexivity |].
  destruct (String.eqb s "."); [inv_ret H; reflexivity | discriminate H].
Qed.

(** The types a field of the header can have. *)
Lemma type_cases fd : In (type fd) ["Flag"; "Integer"; "Float"; "String"].
Proof. unfold type. destruct (vtype fd); simpl; auto. Qed.

Lemma synth_element_Flag results g :
  synth_element "Flag" results g = inl NotImplementedError.
Proof. reflexivity. Qed.

Lemma synth_element_String results g :
  synth_element "String" results g
  = bind (random_choices char_set 10)
      (fun cs => ret (results ++ [VStr (String.string_of_list_ascii cs)])) g.
Proof. reflexivity. Qed.

(** One pass of the loop for a type with a value: one more entry, of that
    type, for the draws of the type. *)
Lemma synth_element_typed ty results g :
  In ty ["Integer"; "Float"; "String"] ->
  exists v g',
    synth_element ty results g = inr (results ++ [v], g') /\
    well_typed ty v /\
    tape g' = tape g /\ cursor g' = (cursor g + draws_per_value ty)%nat.
Proof.
  intros Hty. simpl in Hty.
  destruct Hty as [<- | [<- | [<- | []]]].
  - eexists. exists (advance g). split; [reflexivity |].
    split; [| split; [reflexivity | unfold draws_per_value; simpl; lia]].
    split; [reflexivity |].
    assert (tape g (cursor g) mod 101 < 101)%N as H
      by (apply N.mod_lt; discriminate).
    change (Z.to_N (100 - 0 + 1)) with 101%N.
    revert H. generalize (tape g (cursor g) mod 101)%N. intros x H. lia.
  - eexists. exists (advance g). split; [reflexivity |].
    split; [| split; [reflexivity | unfold draws_per_value; simpl; lia]].
    split; [reflexivity |]. apply N.mod_lt. discriminate.
  - destruct (random_choices_char_set 10 g)
      as (cs & g' & Hrun & Hlen & Hall & Htape & Hcur).
    exists (VStr (String.string_of_list_ascii cs)), g'. split.
    + rewrite synth_element_String. unfold bind. rewrite Hrun. reflexivity.
    + split; [| split; [exact Htape | exact Hcur]].
      split; [reflexivity |]. split.
      * rewrite string_length_of_list. exact Hlen.
      * unfold letters. rewrite String.list_ascii_of_string_of_list_ascii.
        exact Hall.
Qed.

(** The types of the docstring with a value: one pass appends exactly one
    element. *)
Lemma synth_element_appends ty results g :
  In ty ["Integer"; "Float"; "Character"; "String"] ->
  exists v g', synth_element ty results g = inr (results ++ [v], g').
Proof.
  intros Hty. simpl in Hty.
  destruct Hty as [<- | [<- | [<- | [<- | []]]]].
  - eexists; eexists; reflexivity.
  - eexists; eexists; reflexivity.
  - eexists; eexists; reflexivity.
  - destruct (synth_element_typed "String" results g) as (v & g' & Hrun & _);
      [simpl; auto | eauto].
Qed.

Lemma for_range_fails body n e :
  (forall results g, body results g = inl e) ->
  forall results g, for_range (S n) body results g = inl e.
Proof.
  intros Hbody results g. cbn [for_range]. apply bind_fail, Hbody.
Qed.

Lemma for_range_appends body n :
  (forall results g, exists v g', body results g = inr (results ++ [v], g')) ->
  forall results g, exists out g',
    for_range n body results g = inr (out, g') /\
    length out = (length results + n)%nat.
Proof.
  intros Hbody. induction n as [| n IH]; intros results g.
  - exists results, g. split; [reflexivity | lia].
  - destruct (Hbody results g) as (v & g1 & Hv).
    destruct (IH (results ++ [v]) g1) as (out & g' & Hout & Hlen).
    exists out, g'. split.
    + cbn [for_range]. rewrite (bind_run _ _ _ _ _ Hv). exact Hout.
    + rewrite Hlen, length_app. simpl. lia.
Qed.

Lemma for_range_each (P : value -> Prop) body d n :
  (forall results g, exists v g',
      body results g = inr (results ++ [v], g') /\ P v /\
      tape g' = tape g /\ cursor g' = (cursor g + d)%nat) ->
  forall results g, Forall P results ->
  exists out g',
    for_range n body results g = inr (out, g') /\
    length out = (length results + n)%nat /\ Forall P out /\
    tape g' = tape g /\ cursor g' = (cursor g + n * d)%nat.
Proof.
  intros Hbody. induction n as [| n IH]; intros results g Hres.
  - exists results, g. repeat split; [lia | exact Hres | lia].
  - destruct (Hbody results g) as (v & g1 & Hv & HP & Ht1 & Hc1).
    destruct (IH (results ++ [v]) g1) as (out & g' & Hout & Hlen & Hall & Ht & Hc).
    { apply Forall_app. split; [exact Hres | constructor; [exact HP | constructor]]. }
    exists out, g'. split; [| split; [| split; [| split]]].
    + cbn [for_range]. rewrite (bind_run _ _ _ _ _ Hv). exact Hout.
    + rewrite Hlen, length_app. simpl. lia.
    + exact Hall.
    + congruence.
    + rewrite Hc, Hc1. lia.
Qed.

(** What [data_from_vcf_type] does once the header lookups succeed. *)
Lemma data_from_vcf_type_unfold key record section gt_opts fd m g :
  assoc key (section_fields record section) = Some fd ->
  calc_multiplicity key record section g = inr (m, g) ->
  data_from_vcf_type key record section gt_opts g
  = if is_genotype section key then genotype record gt_opts g
    else bind (range_count m) (fun n => for_range n (synth_element (type fd)) []) g.
Proof.
  intros Hfd Hm. unfold data_from_vcf_type.
  rewrite (bind_run _ _ _ _ _ Hm).
  rewrite (bind_run _ _ _ _ _ (getitem_run _ _ type _ g Hfd)).
  unfold is_genotype.
  destruct (String.eqb section "fmt" && String.eqb key "GT"); reflexivity.
Qed.

(** A field with a value type whose count resolves to an integer gets that
    many values of its type. *)
Lemma data_from_vcf_type_typed key record section gt_opts fd m g :
  is_genotype section key = false ->
  assoc key (section_fields record section) = Some fd ->
  In (type fd) ["Integer"; "Float"; "String"] ->
  calc_multiplicity key record section g = inr (Some m, g) ->
  exists t g',
    data_from_vcf_type key record section gt_opts g = inr (t, g') /\
    length t = Z.to_nat m /\
    Forall (well_typed (type fd)) t /\
    cursor g' = (cursor g + Z.to_nat m * draws_per_value (type fd))%nat.
Proof.
  intros Hgt Hfd Hty Hm.
  rewrite (data_from_vcf_type_unfold _ _ _ _ _ _ _ Hfd Hm), Hgt.
  unfold bind, range_count, ret.
  destruct (for_range_each (well_typed (type fd)) (synth_element (type fd))
              (draws_per_value (type fd)) (Z.to_nat m)
              (fun results g0 => synth_element_typed _ results g0 Hty) [] g)
    as (out & g' & Hrun & Hlen & Hall & _ & Hcur); [constructor |].
  exists out, g'. split; [exact Hrun |]. split; [exact Hlen |].
  split; [exact Hall | exact Hcur].
Qed.

(** C2: the flag DB of [demo_header], declared with [Number=0] as flags
    are, is synthesized as the empty tuple, under every mode and without a
    draw: the [NotImplementedError] of line 137 sits inside the loop over
    the elements and is never reached. *)
Theorem Flag_field_returns_empty_tuple gt_opts g :
  data_from_vcf_type "DB" demo_record "info" gt_opts g = inr ([], g).
Proof.
  rewrite (data_from_vcf_type_unfold "DB" demo_record "info" gt_opts
             (mkField (NumInt 0) TFlag) (Some 0) g eq_refl eq_refl).
  reflexivity.
Qed.

(** C3, as the code has it: a line that declares a type outside the five
    VCF types reaches the synthesizer with the type String, and is
    synthesized as a String field is: when its multiplicity resolves to an
    integer, that many strings of ten letters, and no error. *)
Theorem data_from_vcf_type_unknown_type
  key record section gt_opts declared fd m g :
  is_genotype section key = false ->
  assoc key (section_fields record section) = Some fd ->
  vtype fd = pysam_type declared ->
  ~ In declared vcf_types ->
  calc_multiplicity key record section g = inr (Some m, g) ->
  type fd = "String" /\
  exists t g',
    data_from_vcf_type key record section gt_opts g = inr (t, g') /\
    length t = Z.to_nat m /\
    Forall (well_typed "String") t.
Proof.
  intros Hgt Hfd Hdecl Hunknown Hm.
  assert (type fd = "String") as Hty.
  { unfold type. rewrite Hdecl. unfold pysam_type.
    assert (forall t, In t vcf_types -> String.eqb declared t = false) as Hne.
    { intros t Ht. apply String.eqb_neq. intros ->. contradiction. }
    rewrite !Hne by (unfold vcf_types; simpl; tauto).
    reflexivity. }
  split; [exact Hty |].
  destruct (data_from_vcf_type_typed key record section gt_opts fd m g Hgt Hfd)
    as (t & g' & Hrun & Hlen & Hall & _);
    [rewrite Hty; simpl; auto | exact Hm |].
  rewrite Hty in Hall. eauto.
Qed.

Lemma data_from_vcf_type_unknown_type_witness :
  type (mkField (NumInt 2) (pysam_type "Weird")) = "String" /\
  exists t g',
    data_from_vcf_type "XX" demo_record "info" GtNone (constant_rng 0)
    = inr (t, g') /\
    length t = Z.to_nat 2 /\
    Forall (well_typed "String") t.
Proof.
  apply (data_from_vcf_type_unknown_type "XX" demo_record "info" GtNone
           "Weird" (mkField (NumInt 2) (pysam_type "Weird")) 2 (constant_rng 0));
    [reflexivity | reflexivity | reflexivity | | reflexivity].
  unfold vcf_types. simpl. intros [H | [H | [H | [H | [H | []]]]]]; discriminate H.
Defined.

(** C3 as stated fails: the line XX of [demo_header] declares the type
    Weird, and the field is synthesized, as two strings, instead of raising
    [NotImplementedError]. *)
Lemma unknown_type_returns_tuple :
  ~ (forall key record section gt_opts declared fd g,
       is_genotype section key = false ->
       assoc key (section_fields record section) = Some fd ->
       vtype fd = pysam_type declared ->
       ~ In declared vcf_types ->
       data_from_vcf_type key record section gt_opts g = inl NotImplementedError).
Proof.
  intros H.
  assert (~ In "Weird" vcf_types) as Hty.
  { unfold vcf_types. simpl. intros [E | [E | [E | [E | [E | []]]]]]; discriminate E. }
  specialize (H "XX" demo_record "info" GtNone "Weird"
                (mkField (NumInt 2) (pysam_type "Weird"))
                (constant_rng 0) eq_refl eq_refl eq_refl Hty).
  destruct (data_from_vcf_type_typed "XX" demo_record "info" GtNone
              (mkField (NumInt 2) (pysam_type "Weird")) 2 (constant_rng 0)
              eq_refl eq_refl) as (t & g' & Hrun & _);
    [simpl; auto | reflexivity |].
  rewrite Hrun in H. discriminate H.
Qed.

(** ** The random primitives *)

Lemma delete_insert_same {A} (l : list A) i y :
  delete i (<[i := y]> l) = delete i l.
Proof.
  revert i. induction l as [| x l IH]; intros [| i]; simpl; try reflexivity.
  f_equal. apply IH.
Qed.

Lemma insert_Permutation {A} (l : list A) i x y :
  l !! i = Some x -> <[i := y]> l ≡ₚ y :: delete i l.
Proof.
  intros Hi. rewrite <- (delete_insert_same l i y).
  apply delete_Permutation, list_lookup_insert_eq.
  eapply lookup_lt_Some, Hi.
Qed.

(** Exchanging two positions rearranges the list. *)
Lemma swap_Permutation {A} (i j : nat) (l : list A) : swap i j l ≡ₚ l.
Proof.
  unfold swap.
  destruct (l !! i) as [xi |] eqn:Hi; [| reflexivity].
  destruct (l !! j) as [xj |] eqn:Hj; [| reflexivity].
  destruct (decide (i = j)) as [-> | Hne].
  - assert (xi = xj) as -> by congruence.
    rewrite list_insert_insert_eq, list_insert_id; done.
  - assert (<[i := xj]> l !! j = Some xj) as Hj1
      by (rewrite list_lookup_insert_ne; done).
    etrans; [apply (insert_Permutation _ j xj xi Hj1) |].
    etrans; [| symmetry; apply (delete_Permutation l i xi Hi)].
    apply Permutation_cons; [reflexivity |].
    apply (Permutation_cons_inv (a := xj)).
    etrans; [symmetry; apply (delete_Permutation _ j xj Hj1) |].
    apply (insert_Permutation l i xi xj Hi).
Qed.

(** [random.shuffle] always returns, with a rearrangement of its input. *)
Lemma shuffle_from_Permutation {A} (i : nat) (x : list A) g :
  exists y g', shuffle_from i x g = inr (y, g') /\ y ≡ₚ x.
Proof.
  revert x g. induction i as [| i IH]; intros x g.
  - exists x, g. split; reflexivity.
  - cbn [shuffle_from].
    destruct (IH (swap (S i)
                (N.to_nat (tape g (cursor g) mod N.of_nat (S (S i)))) x)
                (advance g)) as (y & g' & Hrun & Hperm).
    exists y, g'. split; [exact Hrun |].
    etrans; [exact Hperm | apply swap_Permutation].
Qed.

(** ** Combinations with replacement *)

Lemma cwr_cons {A} r (x : A) xs :
  cwr (S r) (x :: xs) = map (cons x) (cwr r (x :: xs)) ++ cwr (S r) xs.
Proof. reflexivity. Qed.

Lemma cwr_spec {A} r (pool c : list A) :
  In c (cwr r pool) -> length c = r /\ Forall (fun x => In x pool) c.
Proof.
  revert pool c. induction r as [| r IHr]; intros pool c.
  - simpl. intros [<- | []]. split; [reflexivity | constructor].
  - induction pool as [| x xs IHp]; [intros [] |].
    rewrite cwr_cons, in_app_iff, in_map_iff.
    intros [(c' & <- & Hc') | Hc].
    + destruct (IHr _ _ Hc') as [Hlen Hall].
      split; [simpl; congruence |].
      constructor; [left; reflexivity | exact Hall].
    + destruct (IHp Hc) as [Hlen Hall]. split; [exact Hlen |].
      eapply Forall_impl; [exact Hall |]. intros y Hy. right. exact Hy.
Qed.

Lemma cwr_nonempty {A} r (pool : list A) :
  pool <> [] \/ r = 0%nat -> cwr r pool <> [].
Proof.
  intros [Hpool | ->]; [| discriminate].
  destruct pool as [| x xs]; [congruence |]. clear Hpool.
  induction r as [| r IH]; [discriminate |].
  rewrite cwr_cons.
  destruct (cwr r (x :: xs)); [congruence | discriminate].
Qed.

Lemma range_length a b : length (range a b) = Z.to_nat (b - a).
Proof. unfold range. rewrite length_map, length_seq. reflexivity. Qed.

Lemma range_bounds a b x : In x (range a b) -> a <= x < b.
Proof.
  unfold range. rewrite in_map_iff. intros (i & <- & Hi).
  apply in_seq in Hi. lia.
Qed.

(** A successful choice among the combinations of [r] items of [pool]. *)
Lemma choose_combination (pool : list Z) (r : Z) g :
  0 <= r -> pool <> [] \/ r = 0 ->
  exists combo,
    bind (combinations_with_replacement pool r) random_choice g
    = inr (combo, advance g) /\
    length combo = Z.to_nat r /\ Forall (fun x => In x pool) combo.
Proof.
  intros Hr Hne. unfold bind, combinations_with_replacement.
  destruct (r <? 0) eqn:E; [lia |]. unfold ret.
  destruct (random_choice_ok (cwr (Z.to_nat r) pool) g) as (combo & Hrun & Hin).
  { apply cwr_nonempty. destruct Hne as [H | ->]; [left; exact H | right; reflexivity]. }
  exists combo. split; [exact Hrun |]. apply cwr_spec, Hin.
Qed.

(** ** The genotype synthesizer *)

Lemma data_from_vcf_type_GT record gt_opts fd g :
  assoc "GT" (formats (header record)) = Some fd ->
  data_from_vcf_type "GT" record "fmt" gt_opts g = genotype record gt_opts g.
Proof.
  intros Hfd.
  apply (data_from_vcf_type_unfold "GT" record "fmt" gt_opts fd (Some 1) g Hfd).
  rewrite (calc_multiplicity_run "GT" record "fmt" fd g Hfd). reflexivity.
Qed.

Lemma genotype_HOM_REF record g :
  genotype record (GtEnum HOM_REF) g
  = inr (map VInt (repeat 0 (length (alleles record))), g).
Proof. reflexivity. Qed.

Lemma genotype_HOM_ALT record g :
  genotype record (GtEnum HOM_ALT) g
  = inr (map VInt (repeat 1 (length (alleles record))), g).
Proof. reflexivity. Qed.

(** The heterozygous branch on a record with a reference allele: the
    reference index next to a combination of alternate indices, rearranged. *)
Lemma genotype_HET record g :
  alleles record <> [] ->
  exists combo gt g',
    genotype record (GtEnum HET) g = inr (map VInt gt, g') /\
    gt ≡ₚ 0 :: combo /\
    length combo = (length (alleles record) - 1)%nat /\
    Forall (fun x => 1 <= x) combo.
Proof.
  intros Hne. set (n := length (alleles record)).
  assert (1 <= n)%nat as Hn.
  { subst n. destruct (alleles record); [congruence | simpl; lia]. }
  destruct (choose_combination (range 1 (Z.of_nat n)) (Z.of_nat n - 1) g)
    as (combo & Hrun & Hlen & Hall); [lia | |].
  { destruct (decide (n = 1%nat)) as [-> | Hn1]; [right; reflexivity | left].
    intros E. apply (f_equal length) in E. rewrite range_length in E.
    simpl in E. lia. }
  destruct (shuffle_from_Permutation (length (0 :: combo) - 1) (0 :: combo)
              (advance g)) as (gt & g' & Hsh & Hperm).
  exists combo, gt, g'. repeat split.
  - unfold genotype. cbn [gt_is]. fold n.
    unfold bind in Hrun |- *.
    destruct (combinations_with_replacement (range 1 (Z.of_nat n))
                (Z.of_nat n - 1) g) as [e | [combos g1]]; [discriminate |].
    rewrite Hrun. unfold random_shuffle. rewrite Hsh. reflexivity.
  - exact Hperm.
  - rewrite Hlen. lia.
  - eapply Forall_impl; [exact Hall |].
    intros x Hx. apply range_bounds in Hx. lia.
Qed.

(** The last branch, taken by every value that is not one of the three
    members of the enum. *)
Lemma genotype_otherwise record gt_opts g :
  (forall o, gt_opts <> GtEnum o) ->
  exists combo,
    genotype record gt_opts g = inr (map VInt combo, advance g) /\
    length combo = length (alleles record) /\
    Forall (fun x => 0 <= x < Z.of_nat (length (alleles record))) combo.
Proof.
  intros Hother. set (n := length (alleles record)).
  destruct (choose_combination (range 0 (Z.of_nat n)) (Z.of_nat n) g)
    as (combo & Hrun & Hlen & Hall); [lia | |].
  { destruct (decide (n = 0%nat)) as [-> | Hn0]; [right; reflexivity | left].
    intros E. apply (f_equal length) in E. rewrite range_length in E.
    simpl in E. lia. }
  exists combo. repeat split.
  - unfold genotype. fold n.
    assert (forall o, gt_is gt_opts o = false) as Hno.
    { intros o. destruct gt_opts as [| o' |]; [reflexivity | | reflexivity].
      exfalso. apply (Hother o'). reflexivity. }
    rewrite !Hno.
    unfold bind in Hrun |- *.
    destruct (combinations_with_replacement (range 0 (Z.of_nat n))
                (Z.of_nat n) g) as [e | [combos g1]]; [discriminate |].
    rewrite Hrun. reflexivity.
  - rewrite Hlen. lia.
  - eapply Forall_impl; [exact Hall |].
    intros x Hx. apply range_bounds in Hx. lia.
Qed.

Lemma genotype_returns record gt_opts g :
  alleles record <> [] ->
  exists gt g',
    genotype record gt_opts g = inr (map VInt gt, g') /\
    length gt = length (alleles record).
Proof.
  intros Hne.
  destruct gt_opts as [| [| |] |].
  - destruct (genotype_otherwise record GtNone g) as (c & Hrun & Hlen & _);
      [discriminate | eauto].
  - exists (repeat 0 (length (alleles record))), g.
    split; [apply genotype_HOM_REF | apply repeat_length].
  - exists (repeat 1 (length (alleles record))), g.
    split; [apply genotype_HOM_ALT | apply repeat_length].
  - destruct (genotype_HET record g Hne) as (c & gt & g' & Hrun & Hperm & Hlen & _).
    exists gt, g'. split; [exact Hrun |].
    rewrite (Permutation_length Hperm). simpl. rewrite Hlen.
    destruct (alleles record); [congruence | simpl; lia].
  - destruct (genotype_otherwise record (GtOther obj) g) as (c & Hrun & Hlen & _);
      [discriminate | eauto].
Qed.

(** C6: on a record with a reference allele whose header declares GT, the
    genotype synthesis returns, under every mode, a tuple with as many
    entries as the record has alleles. *)
Theorem genotype_length_is_allele_count record gt_opts fd g :
  assoc "GT" (formats (header record)) = Some fd ->
  alleles record <> [] ->
  exists t g',
    data_from_vcf_type "GT" record "fmt" gt_opts g = inr (t, g') /\
    length t = length (alleles record).
Proof.
  intros Hfd Hne. rewrite (data_from_vcf_type_GT record gt_opts fd g Hfd).
  destruct (genotype_returns record gt_opts g Hne) as (gt & g' & Hrun & Hlen).
  exists (map VInt gt), g'. split; [exact Hrun |].
  rewrite length_map. exact Hlen.
Qed.

Lemma genotype_length_is_allele_count_witness :
  exists t g',
    data_from_vcf_type "GT" demo_record "fmt" (GtEnum HET) (constant_rng 0)
    = inr (t, g') /\
    length t = 2%nat.
Proof.
  apply (genotype_length_is_allele_count demo_record (GtEnum HET)
           (mkField (NumInt 1) TString) (constant_rng 0));
    [reflexivity | discriminate].
Defined.

(** C7: on a record whose header declares GT, HOM_REF yields only 0 and
    HOM_ALT only 1, one entry per allele; HET on a record with at least two
    alleles yields a tuple holding a 0 and a non-zero index. *)
Theorem genotype_mode_contents record fd g :
  assoc "GT" (formats (header record)) = Some fd ->
  (exists t,
     data_from_vcf_type "GT" record "fmt" (GtEnum HOM_REF) g = inr (t, g) /\
     length t = length (alleles record) /\ Forall (fun v => v = VInt 0) t) /\
  (exists t,
     data_from_vcf_type "GT" record "fmt" (GtEnum HOM_ALT) g = inr (t, g) /\
     length t = length (alleles record) /\ Forall (fun v => v = VInt 1) t) /\
  ((2 <= length (alleles record))%nat ->
   exists t g',
     data_from_vcf_type "GT" record "fmt" (GtEnum HET) g = inr (t, g') /\
     In (VInt 0) t /\ exists k, k <> 0 /\ In (VInt k) t).
Proof.
  intros Hfd. rewrite !(data_from_vcf_type_GT record _ fd g Hfd).
  split; [| split].
  - eexists. split; [apply genotype_HOM_REF |].
    rewrite length_map, repeat_length. split; [reflexivity |].
    apply List.Forall_forall. intros v Hv. apply in_map_iff in Hv as (x & <- & Hx).
    apply repeat_spec in Hx. congruence.
  - eexists. split; [apply genotype_HOM_ALT |].
    rewrite length_map, repeat_length. split; [reflexivity |].
    apply List.Forall_forall. intros v Hv. apply in_map_iff in Hv as (x & <- & Hx).
    apply repeat_spec in Hx. congruence.
  - intros Hn.
    destruct (genotype_HET record g) as (combo & gt & g' & Hrun & Hperm & Hlen & Hall).
    { destruct (alleles record); [simpl in Hn; lia | discriminate]. }
    exists (map VInt gt), g'. split; [exact Hrun |].
    destruct combo as [| k combo']; [simpl in Hlen; lia |].
    split.
    + apply in_map. apply (Permutation_in _ (Permutation_sym Hperm)).
      left. reflexivity.
    + exists k. split.
      * apply Forall_cons in Hall as [Hk _]. lia.
      * apply in_map. apply (Permutation_in _ (Permutation_sym Hperm)).
        right. left. reflexivity.
Qed.

Lemma genotype_mode_contents_witness :
  exists t g',
    data_from_vcf_type "GT" demo_record "fmt" (GtEnum HET) (constant_rng 3)
    = inr (t, g') /\
    In (VInt 0) t /\ exists k, k <> 0 /\ In (VInt k) t.
Proof.
  destruct (genotype_mode_contents demo_record (mkField (NumInt 1) TString)
              (constant_rng 3) eq_refl) as (_ & _ & H).
  apply H. simpl. lia.
Defined.

(** C4, as the code has it: a mode that is none of the three members of
    the enum, recognized or not, takes the last branch, the one of the
    unspecified mode, and returns a tuple with one entry per allele after
    one draw; the synthesizer has no error for the mode. *)
Theorem unrecognized_mode_is_uniform_random record gt_opts fd g :
  assoc "GT" (formats (header record)) = Some fd ->
  (forall o, gt_opts <> GtEnum o) ->
  data_from_vcf_type "GT" record "fmt" gt_opts g
  = data_from_vcf_type "GT" record "fmt" GtNone g /\
  exists t,
    data_from_vcf_type "GT" record "fmt" gt_opts g = inr (t, advance g) /\
    length t = length (alleles record).
Proof.
  intros Hfd Hother. rewrite !(data_from_vcf_type_GT record _ fd g Hfd).
  split.
  - unfold genotype.
    assert (forall o, gt_is gt_opts o = false) as Hno.
    { intros o. destruct gt_opts as [| o' |]; [reflexivity | | reflexivity].
      exfalso. apply (Hother o'). reflexivity. }
    rewrite !Hno. reflexivity.
  - destruct (genotype_otherwise record gt_opts g Hother) as (c & Hrun & Hlen & _).
    exists (map VInt c). split; [exact Hrun |].
    rewrite length_map. exact Hlen.
Qed.

Lemma unrecognized_mode_is_uniform_random_witness :
  data_from_vcf_type "GT" demo_record "fmt" (GtOther "het") (constant_rng 0)
  = data_from_vcf_type "GT" demo_record "fmt" GtNone (constant_rng 0) /\
  exists t,
    data_from_vcf_type "GT" demo_record "fmt" (GtOther "het") (constant_rng 0)
    = inr (t, advance (constant_rng 0)) /\
    length t = 2%nat.
Proof.
  apply (unrecognized_mode_is_uniform_random demo_record (GtOther "het")
           (mkField (NumInt 1) TString) (constant_rng 0));
    [reflexivity | discriminate].
Defined.

(** C4 as stated fails: the bare string het, which is not a member of the
    enum, yields a genotype tuple, not an error. *)
Lemma unrecognized_mode_returns_tuple :
  ~ (forall record gt_opts fd g,
       assoc "GT" (formats (header record)) = Some fd ->
       gt_opts <> GtNone -> (forall o, gt_opts <> GtEnum o) ->
       exists e, data_from_vcf_type "GT" record "fmt" gt_opts g = inl e).
Proof.
  intros H.
  destruct (H demo_record (GtOther "het") (mkField (NumInt 1) TString)
              (constant_rng 0) eq_refl) as (e & He); [discriminate .. |].
  discriminate He.
Qed.

(** ** Tuple lengths *)

(** For the four types with a value, synthesis returns as soon as the
    multiplicity resolves to an integer, with that many entries. *)
Lemma data_from_vcf_type_returns key record section gt_opts fd m g :
  is_genotype section key = false ->
  assoc key (section_fields record section) = Some fd ->
  In (type fd) ["Integer"; "Float"; "Character"; "String"] ->
  calc_multiplicity key record section g = inr (Some m, g) ->
  exists t g',
    data_from_vcf_type key record section gt_opts g = inr (t, g') /\
    length t = Z.to_nat m.
Proof.
  intros Hgt Hfd Hty Hm.
  rewrite (data_from_vcf_type_unfold _ _ _ _ _ _ _ Hfd Hm), Hgt.
  unfold bind, range_count, ret.
  destruct (for_range_appends (synth_element (type fd)) (Z.to_nat m)
              (fun results g0 => synth_element_appends _ results g0 Hty) [] g)
    as (out & g' & Hrun & Hlen).
  exists out, g'. split; [exact Hrun | exact Hlen].
Qed.

(** C5, as the code has it: for a field other than the per-sample genotype
    whose type is one of the five VCF types, a returned tuple has the
    length the multiplicity resolver gives (none for a negative count); in
    particular a field not named GT with fixed arity [k] gets [k] entries. *)
Theorem tuple_length_is_multiplicity key record section gt_opts fd g t g' :
  is_genotype section key = false ->
  assoc key (section_fields record section) = Some fd ->
  In (type fd) vcf_types ->
  data_from_vcf_type key record section gt_opts g = inr (t, g') ->
  exists m,
    calc_multiplicity key record section g = inr (Some m, g) /\
    Z.of_nat (length t) = Z.max 0 m /\
    (forall k : nat, key <> "GT" -> number fd = NumInt (Z.of_nat k) ->
       length t = k).
Proof.
  intros Hgt Hfd Hty Hrun.
  assert (exists m, calc_multiplicity key record section g = inr (m, g))
    as (m & Hm).
  { unfold data_from_vcf_type in Hrun. inv_bind Hrun.
    pose proof (calc_multiplicity_pure _ _ _ _ _ _ Hrun0) as ->.
    exists a. exact Hrun0. }
  rewrite (data_from_vcf_type_unfold _ _ _ _ _ _ _ Hfd Hm), Hgt in Hrun.
  destruct m as [m |]; [| discriminate Hrun].
  unfold bind, range_count, ret in Hrun.
  assert (length t = Z.to_nat m) as Hlen.
  { unfold vcf_types in Hty. simpl in Hty.
    destruct (String.string_dec (type fd) "Flag") as [Hflag | Hflag].
    - rewrite Hflag in Hrun.
      destruct (Z.to_nat m) as [| n] eqn:En.
      + simpl in Hrun. inv_ret Hrun. reflexivity.
      + rewrite (for_range_fails _ n NotImplementedError synth_element_Flag)
          in Hrun.
        discriminate Hrun.
    - destruct (for_range_appends (synth_element (type fd)) (Z.to_nat m)
                  (fun results g0 => synth_element_appends (type fd) results g0
                     ltac:(simpl; intuition congruence)) [] g)
        as (out & g1 & Hout & Hlen).
      rewrite Hout in Hrun. inv_ret Hrun. exact Hlen. }
  exists m. split; [exact Hm |]. split; [lia |].
  intros k Hkey Hnum.
  rewrite (calc_multiplicity_run key record section fd g Hfd) in Hm.
  apply String.eqb_neq in Hkey. rewrite Hkey, Hnum in Hm.
  injection Hm as <-. lia.
Qed.

Lemma tuple_length_is_multiplicity_witness :
  exists m,
    calc_multiplicity "DP" demo_record "info" (constant_rng 7)
    = inr (Some m, constant_rng 7) /\
    Z.of_nat (length [VInt 7]) = Z.max 0 m /\
    (forall k : nat, "DP" <> "GT" -> NumInt 1 = NumInt (Z.of_nat k) ->
       length [VInt 7] = k).
Proof.
  apply (tuple_length_is_multiplicity "DP" demo_record "info" GtNone
           (mkField (NumInt 1) TInteger) (constant_rng 7)
           [VInt 7] (mkRng (fun _ => 7%N) 1));
    [reflexivity | reflexivity | | reflexivity].
  unfold vcf_types. simpl. tauto.
Defined.

(** C5 as stated fails on the genotype field: on the biallelic
    [demo_record] the tuple has two entries while the resolver answers 1. *)
Lemma genotype_length_is_not_multiplicity :
  ~ (forall key record section gt_opts fd g t g' m,
       assoc key (section_fields record section) = Some fd ->
       data_from_vcf_type key record section gt_opts g = inr (t, g') ->
       calc_multiplicity key record section g = inr (Some m, g) ->
       Z.of_nat (length t) = m).
Proof.
  intros H.
  specialize (H "GT" demo_record "fmt" (GtEnum HOM_REF)
                (mkField (NumInt 1) TString) (constant_rng 0)
                [VInt 0; VInt 0] (constant_rng 0) 1 eq_refl eq_refl eq_refl).
  discriminate H.
Qed.

(** ** The record assembler *)

Lemma add_info_alleles keys gt_opts record g record' g' :
  add_info keys gt_opts record g = inr (record', g') ->
  alleles record' = alleles record.
Proof.
  revert record g. induction keys as [| key rest IH]; intros record g H.
  - inv_ret H. reflexivity.
  - cbn [add_info] in H. destruct (String.eqb key "END"); [eauto |].
    inv_bind H. apply IH in H. exact H.
Qed.

Lemma add_formats_alleles sample keys gt_opts record g record' g' :
  add_formats sample keys gt_opts record g = inr (record', g') ->
  alleles record' = alleles record.
Proof.
  revert record g. induction keys as [| key rest IH]; intros record g H.
  - inv_ret H. reflexivity.
  - cbn [add_formats] in H. inv_bind H. apply IH in H. exact H.
Qed.

Lemma add_samples_alleles names fmt_keys gt_opts record g record' g' :
  add_samples names fmt_keys gt_opts record g = inr (record', g') ->
  alleles record' = alleles record.
Proof.
  revert record g. induction names as [| sample rest IH]; intros record g H.
  - inv_ret H. reflexivity.
  - cbn [add_samples] in H. inv_bind H.
    apply add_formats_alleles in H0. apply IH in H. congruence.
Qed.

Lemma random_base_run g :
  random_base g = inr (base_of_draw (tape g (cursor g)), advance g).
Proof. reflexivity. Qed.

Lemma base_of_draw_in_bases d : In (base_of_draw d) bases.
Proof.
  unfold base_of_draw. apply nth_In.
  assert (d mod 5 < 5)%N by (apply N.mod_lt; lia).
  simpl. lia.
Qed.

Lemma bases_by_draw a : In a bases -> exists d, base_of_draw d = a.
Proof.
  unfold bases. simpl.
  intros [<- | [<- | [<- | [<- | [<- | []]]]]];
    [exists 0%N | exists 1%N | exists 2%N | exists 3%N | exists 4%N];
    reflexivity.
Qed.

Lemma random_contig_bare_header i j :
  random_contig bare_header None None (two_draws i j)
  = inr (mkContig "chr1" (Some 1000%positive), advance (two_draws i j)).
Proof. vm_compute. reflexivity. Qed.

(** C10: the five symbols A, T, C, G, N are distinct, and a record that
    [generate_record] returns has exactly two alleles, each the symbol at
    the place, in that list, given by its own draw modulo 5: the two draws
    that follow the choice of the contig, so that every symbol answers to
    one residue in five.  Every ordered pair of symbols, equal ones
    included, is the allele list of some run. *)
Theorem generate_record_alleles :
  List.NoDup ["A"; "T"; "C"; "G"; "N"] /\
  (forall header exclude include gt_opts g record g',
     generate_record header exclude include gt_opts g = inr (record, g') ->
     exists c g1,
       random_contig header exclude include g = inr (c, g1) /\
       alleles record
       = [nth (N.to_nat (tape g1 (cursor g1) mod 5))
            ["A"; "T"; "C"; "G"; "N"] "A";
          nth (N.to_nat (tape g1 (S (cursor g1)) mod 5))
            ["A"; "T"; "C"; "G"; "N"] "A"] /\
       Forall (fun a => In a ["A"; "T"; "C"; "G"; "N"]) (alleles record)) /\
  (forall a b,
     In a ["A"; "T"; "C"; "G"; "N"] -> In b ["A"; "T"; "C"; "G"; "N"] ->
     exists g record g',
       generate_record bare_header None None GtNone g = inr (record, g') /\
       alleles record = [a; b]).
Proof.
  split; [| split].
  - repeat (apply List.NoDup_cons; [simpl; intuition discriminate |]).
    apply List.NoDup_nil.
  - intros header exclude include gt_opts g record g' H.
    unfold generate_record in H.
    apply bind_inr in H as (c & g1 & Hc & H).
    rewrite (bind_run _ _ _ _ _ (random_base_run g1)) in H.
    rewrite (bind_run _ _ _ _ _ (random_base_run (advance g1))) in H.
    apply bind_inr in H as (st & g2 & _ & H).
    apply bind_inr in H as (r1 & g3 & Hinfo & H).
    apply add_samples_alleles in H. apply add_info_alleles in Hinfo.
    exists c, g1. split; [exact Hc |].
    assert (alleles record
            = [base_of_draw (tape g1 (cursor g1));
               base_of_draw (tape g1 (S (cursor g1)))]) as Hal
      by (rewrite H, Hinfo; reflexivity).
    split; [exact Hal |].
    rewrite Hal.
    constructor; [apply base_of_draw_in_bases |].
    constructor; [apply base_of_draw_in_bases | constructor].
  - intros a b Ha Hb.
    destruct (bases_by_draw a Ha) as (i & <-).
    destruct (bases_by_draw b Hb) as (j & <-).
    exists (two_draws i j). eexists. eexists.
    unfold generate_record.
    rewrite (bind_run _ _ _ _ _ (random_contig_bare_header i j)).
    split; reflexivity.
Qed.

Lemma generate_record_alleles_witness :
  exists c g1,
    random_contig bare_header None None (constant_rng 0) = inr (c, g1) /\
    alleles (new_record bare_header "chr1" ["A"; "A"] 1)
    = [nth (N.to_nat (tape g1 (cursor g1) mod 5))
         ["A"; "T"; "C"; "G"; "N"] "A";
       nth (N.to_nat (tape g1 (S (cursor g1)) mod 5))
         ["A"; "T"; "C"; "G"; "N"] "A"] /\
    Forall (fun a => In a ["A"; "T"; "C"; "G"; "N"])
      (alleles (new_record bare_header "chr1" ["A"; "A"] 1)).
Proof.
  apply (proj1 (proj2 generate_record_alleles) bare_header None None GtNone
           (constant_rng 0) (new_record bare_header "chr1" ["A"; "A"] 1)
           (mkRng (fun _ => 0%N) 4)).
  reflexivity.
Defined.

(** ** Further properties of the resolver and the value synthesizer *)

(** X1: a key the header section does not declare, GT included, raises
    [KeyError] in the resolver, hence in the synthesizer. *)
Theorem undeclared_key_raises_KeyError key record section gt_opts g :
  assoc key (section_fields record section) = None ->
  calc_multiplicity key record section g = inl (KeyError key) /\
  data_from_vcf_type key record section gt_opts g = inl (KeyError key).
Proof.
  intros Hnone.
  assert (calc_multiplicity key record section g = inl (KeyError key)) as Hm.
  { unfold calc_multiplicity, bind, getitem. rewrite Hnone. reflexivity. }
  split; [exact Hm |].
  unfold data_from_vcf_type. apply bind_fail, Hm.
Qed.

Lemma undeclared_key_raises_KeyError_witness :
  calc_multiplicity "GT" demo_record "info" (constant_rng 0)
  = inl (KeyError "GT") /\
  data_from_vcf_type "GT" demo_record "info" GtNone (constant_rng 0)
  = inl (KeyError "GT").
Proof.
  apply (undeclared_key_raises_KeyError "GT" demo_record "info" GtNone
           (constant_rng 0)).
  reflexivity.
Defined.

(** X2: on a record with an alternate allele, a per-allele field resolves
    to one more than a per-alt field; on a record without one,
    [record.alts] is [None] and the per-alt count raises [TypeError], while
    the per-allele count is still returned. *)
Theorem per_allele_is_per_alt_plus_one ka kr record sa sr fa fr g :
  ka <> "GT" -> kr <> "GT" ->
  assoc ka (section_fields record sa) = Some fa -> number fa = NumStr "A" ->
  assoc kr (section_fields record sr) = Some fr -> number fr = NumStr "R" ->
  ((2 <= length (alleles record))%nat ->
   exists a,
     calc_multiplicity ka record sa g = inr (Some a, g) /\
     calc_multiplicity kr record sr g = inr (Some (a + 1), g) /\
     1 <= a) /\
  ((length (alleles record) < 2)%nat ->
   calc_multiplicity ka record sa g = inl TypeError /\
   calc_multiplicity kr record sr g
   = inr (Some (Z.of_nat (length (alleles record))), g)).
Proof.
  intros Hka Hkr Hfa Hna Hfr Hnr.
  apply String.eqb_neq in Hka, Hkr.
  rewrite (calc_multiplicity_run ka record sa fa g Hfa), Hka, Hna.
  rewrite (calc_multiplicity_run kr record sr fr g Hfr), Hkr, Hnr.
  cbn [String.eqb Ascii.eqb Bool.eqb andb].
  pose proof (alts_spec record) as Ha.
  destruct (alts record) as [a |].
  - destruct Ha as [Hn Ha]. split; [| lia].
    intros _. exists (Z.of_nat (length a)).
    split; [reflexivity |]. split; [| lia].
    do 3 f_equal. lia.
  - split; [lia |]. intros _. split; reflexivity.
Qed.

Lemma per_allele_is_per_alt_plus_one_witness :
  (exists a,
     calc_multiplicity "AC" triallelic_record "info" (constant_rng 0)
     = inr (Some a, constant_rng 0) /\
     calc_multiplicity "AD" triallelic_record "fmt" (constant_rng 0)
     = inr (Some (a + 1), constant_rng 0) /\
     1 <= a) /\
  (calc_multiplicity "AC" ref_only_record "info" (constant_rng 0)
   = inl TypeError /\
   calc_multiplicity "AD" ref_only_record "fmt" (constant_rng 0)
   = inr (Some (Z.of_nat (length (alleles ref_only_record))), constant_rng 0)).
Proof.
  split.
  - apply (proj1 (per_allele_is_per_alt_plus_one "AC" "AD" triallelic_record
                    "info" "fmt" (mkField (NumStr "A") TInteger)
                    (mkField (NumStr "R") TInteger) (constant_rng 0)
                    ltac:(discriminate) ltac:(discriminate)
                    eq_refl eq_refl eq_refl eq_refl)).
    simpl. lia.
  - apply (proj2 (per_allele_is_per_alt_plus_one "AC" "AD" ref_only_record
                    "info" "fmt" (mkField (NumStr "A") TInteger)
                    (mkField (NumStr "R") TInteger) (constant_rng 0)
                    ltac:(discriminate) ltac:(discriminate)
                    eq_refl eq_refl eq_refl eq_refl)).
    simpl. lia.
Defined.

(** X3: a field of unknown count (the dot) that is not named GT cannot be
    synthesized: [range(None)] raises [TypeError], whatever its type. *)
Theorem unbounded_count_raises_TypeError key record section gt_opts fd g :
  key <> "GT" ->
  assoc key (section_fields record section) = Some fd ->
  number fd = NumStr "." ->
  data_from_vcf_type key record section gt_opts g = inl TypeError.
Proof.
  intros Hkey Hfd Hnum. apply String.eqb_neq in Hkey.
  assert (calc_multiplicity key record section g = inr (None, g)) as Hm.
  { rewrite (calc_multiplicity_run key record section fd g Hfd), Hkey, Hnum.
    reflexivity. }
  rewrite (data_from_vcf_type_unfold _ _ _ _ _ _ _ Hfd Hm).
  unfold is_genotype. rewrite Hkey, andb_false_r. reflexivity.
Qed.

Lemma unbounded_count_raises_TypeError_witness :
  data_from_vcf_type "XS"
    (new_record (mkHeader [("XS", mkField (NumStr ".") TString)] [] [] [])
       "chr1" ["A"; "C"] 1) "info" GtNone (constant_rng 0)
  = inl TypeError.
Proof.
  apply (unbounded_count_raises_TypeError "XS" _ "info" GtNone
           (mkField (NumStr ".") TString));
    [discriminate | reflexivity | reflexivity].
Defined.

(** X4: a field not named GT whose count is a specifier other than A, R and
    the dot (G, say) makes the synthesizer raise [NotImplementedError],
    whatever its type. *)
Theorem unsupported_count_raises_NotImplemented key record section gt_opts fd s g :
  key <> "GT" ->
  assoc key (section_fields record section) = Some fd ->
  number fd = NumStr s -> s <> "A" -> s <> "R" -> s <> "." ->
  data_from_vcf_type key record section gt_opts g = inl NotImplementedError.
Proof.
  intros Hkey Hfd Hnum HA HR Hdot.
  apply String.eqb_neq in Hkey, HA, HR, Hdot.
  unfold data_from_vcf_type. apply bind_fail.
  rewrite (calc_multiplicity_run key record section fd g Hfd).
  rewrite Hkey, Hnum, HA, HR, Hdot. reflexivity.
Qed.

Lemma unsupported_count_raises_NotImplemented_witness :
  data_from_vcf_type "PL" demo_record "fmt" GtNone (constant_rng 0)
  = inl NotImplementedError.
Proof.
  apply (unsupported_count_raises_NotImplemented "PL" demo_record "fmt" GtNone
           (mkField (NumStr "G") TInteger) "G");
    [discriminate | reflexivity | reflexivity | discriminate ..].
Defined.

(** X5: for a field other than the per-sample genotype that is no Flag
    (pysam then reports Integer, Float or String, the last for a line that
    declares Character too) and whose count resolves to an integer,
    synthesis returns that many values of the reported type: an integer
    from 0 to 100, a multiple of [2^-53] below 1, or a string of ten ASCII
    letters; and it makes one draw per value, ten per string. *)
Theorem synthesized_values_are_typed key record section gt_opts fd m g :
  is_genotype section key = false ->
  assoc key (section_fields record section) = Some fd ->
  type fd <> "Flag" ->
  calc_multiplicity key record section g = inr (Some m, g) ->
  exists t g',
    data_from_vcf_type key record section gt_opts g = inr (t, g') /\
    length t = Z.to_nat m /\
    Forall (well_typed (type fd)) t /\
    draws g g' = (Z.to_nat m * draws_per_value (type fd))%nat.
Proof.
  intros Hgt Hfd Hflag Hm.
  assert (In (type fd) ["Integer"; "Float"; "String"]) as Hty.
  { pose proof (type_cases fd) as H. simpl in H |- *. intuition congruence. }
  destruct (data_from_vcf_type_typed key record section gt_opts fd m g
              Hgt Hfd Hty Hm) as (t & g' & Hrun & Hlen & Hall & Hcur).
  exists t, g'. split; [exact Hrun |]. split; [exact Hlen |].
  split; [exact Hall |]. unfold draws. lia.
Qed.

Lemma synthesized_values_are_typed_witness :
  exists t g',
    data_from_vcf_type "XX" demo_record "info" GtNone (constant_rng 7)
    = inr (t, g') /\
    length t = Z.to_nat 2 /\
    Forall (well_typed (type (mkField (NumInt 2) (pysam_type "Weird")))) t /\
    draws (constant_rng 7) g'
    = (Z.to_nat 2
       * draws_per_value (type (mkField (NumInt 2) (pysam_type "Weird"))))%nat.
Proof.
  apply (synthesized_values_are_typed "XX" demo_record "info" GtNone
           (mkField (NumInt 2) (pysam_type "Weird")) 2 (constant_rng 7));
    [reflexivity | reflexivity | discriminate | reflexivity].
Defined.

(** X6: an INFO field named GT is no genotype: the resolver still answers
    1 for it, whatever count the header declares, and the synthesizer
    returns one value of its declared type. *)
Theorem info_GT_gets_one_value record section gt_opts fd g :
  section <> "fmt" ->
  assoc "GT" (info (header record)) = Some fd ->
  In (type fd) ["Integer"; "Float"; "Character"; "String"] ->
  exists v g',
    data_from_vcf_type "GT" record section gt_opts g = inr ([v], g') /\
    well_typed (type fd) v.
Proof.
  intros Hsec Hfd Hty.
  apply String.eqb_neq in Hsec.
  assert (assoc "GT" (section_fields record section) = Some fd) as Hfd'
    by (unfold section_fields; rewrite Hsec; exact Hfd).
  assert (calc_multiplicity "GT" record section g = inr (Some 1, g)) as Hm
    by (rewrite (calc_multiplicity_run "GT" record section fd g Hfd');
        reflexivity).
  rewrite (data_from_vcf_type_unfold _ _ _ _ _ _ _ Hfd' Hm).
  unfold is_genotype. rewrite Hsec. cbn [andb].
  assert (In (type fd) ["Integer"; "Float"; "String"]) as Hty'.
  { pose proof (type_cases fd) as H. simpl in H, Hty |- *. intuition congruence. }
  destruct (synth_element_typed (type fd) [] g Hty') as (v & g' & Hrun & Hv & _).
  exists v, g'. split; [| exact Hv].
  unfold bind, range_count, ret. change (Z.to_nat 1) with 1%nat.
  cbn [for_range]. unfold bind. rewrite Hrun. reflexivity.
Qed.

Lemma info_GT_gets_one_value_witness :
  exists v g',
    data_from_vcf_type "GT"
      (new_record (mkHeader [("GT", mkField (NumInt 3) TInteger)] [] [] [])
         "chr1" ["A"; "C"] 1) "info" GtNone (constant_rng 7)
    = inr ([v], g') /\
    well_typed "Integer" v.
Proof.
  apply (info_GT_gets_one_value
           (new_record (mkHeader [("GT", mkField (NumInt 3) TInteger)] [] [] [])
              "chr1" ["A"; "C"] 1) "info" GtNone
           (mkField (NumInt 3) TInteger) (constant_rng 7));
    [discriminate | reflexivity | simpl; tauto].
Defined.

(** ** Further properties of the genotype synthesizer *)

Lemma range_sorted_from a s k :
  StronglySorted Z.le (map (fun i => a + Z.of_nat i) (seq s k)).
Proof.
  revert s. induction k as [| k IH]; intros s; [constructor |].
  cbn [seq map]. constructor; [apply IH |].
  apply List.Forall_forall. intros x Hx.
  apply in_map_iff in Hx as (i & <- & Hi). apply in_seq in Hi. lia.
Qed.

Lemma range_sorted a b : StronglySorted Z.le (range a b).
Proof. apply range_sorted_from. Qed.

(** A combination with replacement follows the order of its pool. *)
Lemma cwr_sorted r (pool c : list Z) :
  StronglySorted Z.le pool -> In c (cwr r pool) -> StronglySorted Z.le c.
Proof.
  revert pool c. induction r as [| r IHr]; intros pool c Hpool.
  - simpl. intros [<- | []]. constructor.
  - induction pool as [| x xs IHp]; [intros [] |].
    rewrite cwr_cons, in_app_iff, in_map_iff.
    intros [(c' & <- & Hc') | Hc].
    + constructor; [apply (IHr (x :: xs)); assumption |].
      destruct (cwr_spec _ _ _ Hc') as [_ Hall].
      apply StronglySorted_inv in Hpool as [_ Hx].
      eapply Forall_impl; [exact Hall |].
      intros y [<- | Hy]; [lia |].
      apply (proj1 (List.Forall_forall _ _) Hx y Hy).
    + apply IHp; [| exact Hc].
      apply StronglySorted_inv in Hpool as [Hxs _]. exact Hxs.
Qed.

Lemma choose_combination_mem (pool : list Z) (r : Z) g :
  0 <= r -> pool <> [] \/ r = 0 ->
  exists combo,
    bind (combinations_with_replacement pool r) random_choice g
    = inr (combo, advance g) /\
    In combo (cwr (Z.to_nat r) pool).
Proof.
  intros Hr Hne. unfold bind, combinations_with_replacement.
  destruct (r <? 0) eqn:E; [lia |]. unfold ret.
  destruct (random_choice_ok (cwr (Z.to_nat r) pool) g) as (combo & Hrun & Hin).
  { apply cwr_nonempty. destruct Hne as [H | ->]; [left; exact H | right; reflexivity]. }
  exists combo. split; [exact Hrun | exact Hin].
Qed.

(** X7: under the unspecified mode, and under any value that is not a
    member of the enum, the genotype is one allele index per allele, in
    non-decreasing order, after a single draw: the pair (1, 0) never
    comes out. *)
Theorem uniform_genotype_is_sorted record gt_opts fd g :
  assoc "GT" (formats (header record)) = Some fd ->
  (forall o, gt_opts <> GtEnum o) ->
  exists idx,
    data_from_vcf_type "GT" record "fmt" gt_opts g
    = inr (map VInt idx, advance g) /\
    length idx = length (alleles record) /\
    Forall (fun x => 0 <= x < Z.of_nat (length (alleles record))) idx /\
    StronglySorted Z.le idx.
Proof.
  intros Hfd Hother. rewrite (data_from_vcf_type_GT record gt_opts fd g Hfd).
  set (n := length (alleles record)).
  destruct (choose_combination_mem (range 0 (Z.of_nat n)) (Z.of_nat n) g)
    as (combo & Hrun & Hin); [lia | |].
  { destruct (decide (n = 0%nat)) as [-> | Hn0]; [right; reflexivity | left].
    intros E. apply (f_equal length) in E. rewrite range_length in E.
    simpl in E. lia. }
  exists combo. split; [| split; [| split]].
  - unfold genotype. fold n.
    assert (forall o, gt_is gt_opts o = false) as Hno.
    { intros o. destruct gt_opts as [| o' |]; [reflexivity | | reflexivity].
      exfalso. apply (Hother o'). reflexivity. }
    rewrite !Hno. unfold bind in Hrun |- *.
    destruct (combinations_with_replacement (range 0 (Z.of_nat n))
                (Z.of_nat n) g) as [e | [combos g1]]; [discriminate |].
    rewrite Hrun. reflexivity.
  - destruct (cwr_spec _ _ _ Hin) as [Hlen _]. rewrite Hlen. lia.
  - destruct (cwr_spec _ _ _ Hin) as [_ Hall].
    eapply Forall_impl; [exact Hall |].
    intros x Hx. apply range_bounds in Hx. lia.
  - apply (cwr_sorted _ _ _ (range_sorted _ _) Hin).
Qed.

Lemma uniform_genotype_is_sorted_witness :
  exists idx,
    data_from_vcf_type "GT" demo_record "fmt" GtNone (constant_rng 1)
    = inr (map VInt idx, advance (constant_rng 1)) /\
    length idx = 2%nat /\
    Forall (fun x => 0 <= x < Z.of_nat 2) idx /\
    StronglySorted Z.le idx.
Proof.
  apply (uniform_genotype_is_sorted demo_record GtNone
           (mkField (NumInt 1) TString) (constant_rng 1));
    [reflexivity | discriminate].
Defined.

(** X8: under HET, on a record with a reference allele whose header
    declares GT, the genotype has one index per allele, all of them allele
    indices, and exactly one of them is the reference index 0. *)
Theorem het_genotype_has_one_reference record fd g :
  assoc "GT" (formats (header record)) = Some fd ->
  alleles record <> [] ->
  exists idx g',
    data_from_vcf_type "GT" record "fmt" (GtEnum HET) g
    = inr (map VInt idx, g') /\
    length idx = length (alleles record) /\
    Forall (fun x => 0 <= x < Z.of_nat (length (alleles record))) idx /\
    count_occ Z.eq_dec idx 0 = 1%nat.
Proof.
  intros Hfd Hne. rewrite (data_from_vcf_type_GT record _ fd g Hfd).
  set (n := length (alleles record)).
  assert (1 <= n)%nat as Hn.
  { subst n. destruct (alleles record); [congruence | simpl; lia]. }
  destruct (choose_combination_mem (range 1 (Z.of_nat n)) (Z.of_nat n - 1) g)
    as (combo & Hrun & Hin); [lia | |].
  { destruct (decide (n = 1%nat)) as [-> | Hn1]; [right; reflexivity | left].
    intros E. apply (f_equal length) in E. rewrite range_length in E.
    simpl in E. lia. }
  destruct (cwr_spec _ _ _ Hin) as [Hlen Hall].
  assert (Forall (fun x => 1 <= x < Z.of_nat n) combo) as Hbounds.
  { eapply Forall_impl; [exact Hall |]. intros x Hx. apply range_bounds, Hx. }
  destruct (shuffle_from_Permutation (length (0 :: combo) - 1) (0 :: combo)
              (advance g)) as (gt & g' & Hsh & Hperm).
  exists gt, g'. split; [| split; [| split]].
  - unfold genotype. cbn [gt_is]. fold n. unfold bind in Hrun |- *.
    destruct (combinations_with_replacement (range 1 (Z.of_nat n))
                (Z.of_nat n - 1) g) as [e | [combos g1]]; [discriminate |].
    rewrite Hrun. unfold random_shuffle. rewrite Hsh. reflexivity.
  - rewrite (Permutation_length Hperm). simpl. rewrite Hlen. lia.
  - apply List.Forall_forall. intros x Hx.
    apply (Permutation_in _ Hperm) in Hx. destruct Hx as [<- | Hx]; [lia |].
    pose proof (proj1 (List.Forall_forall _ _) Hbounds x Hx) as Hb.
    unfold n in Hb. lia.
  - rewrite (proj1 (Permutation_count_occ Z.eq_dec _ _) Hperm 0).
    rewrite count_occ_cons_eq by reflexivity. f_equal.
    apply count_occ_not_In. intros H0.
    pose proof (proj1 (List.Forall_forall _ _) Hbounds 0 H0) as Hb.
    simpl in Hb. lia.
Qed.

Lemma het_genotype_has_one_reference_witness :
  exists idx g',
    data_from_vcf_type "GT" demo_record "fmt" (GtEnum HET) (constant_rng 0)
    = inr (map VInt idx, g') /\
    length idx = 2%nat /\
    Forall (fun x => 0 <= x < Z.of_nat 2) idx /\
    count_occ Z.eq_dec idx 0 = 1%nat.
Proof.
  apply (het_genotype_has_one_reference demo_record
           (mkField (NumInt 1) TString) (constant_rng 0));
    [reflexivity | discriminate].
Defined.

Lemma random_choice_singleton {A} (x : A) g :
  random_choice [x] g = inr (x, advance g).
Proof.
  unfold random_choice, bind, randbelow, bind, next_raw, ret.
  change (N.of_nat (length [x])) with 1%N. rewrite N.mod_1_r. reflexivity.
Qed.

Lemma random_shuffle_pair {A} (x y : A) g :
  random_shuffle [x; y] g
  = inr (if (tape g (cursor g) mod 2 =? 0)%N then [y; x] else [x; y], advance g).
Proof.
  unfold random_shuffle. change (length [x; y] - 1)%nat with 1%nat.
  cbn [shuffle_from]. unfold bind, randbelow, bind, next_raw, ret.
  change (N.of_nat 2) with 2%N.
  assert (tape g (cursor g) mod 2 < 2)%N as Hlt by (apply N.mod_lt; discriminate).
  destruct (tape g (cursor g) mod 2)%N as [| [p | p |]]; try lia; reflexivity.
Qed.

(** X9: on a biallelic record, as [generate_record] builds them, HET
    yields (0, 1) or (1, 0) by the parity of its second draw, and the
    unspecified mode (or any value outside the enum) yields (0, 0), (0, 1)
    or (1, 1) by its single draw modulo 3. *)
Theorem biallelic_genotypes record fd ref alt g :
  assoc "GT" (formats (header record)) = Some fd ->
  alleles record = [ref; alt] ->
  data_from_vcf_type "GT" record "fmt" (GtEnum HET) g
  = inr (map VInt (if (tape g (S (cursor g)) mod 2 =? 0)%N
                   then [1; 0] else [0; 1]),
         advance (advance g)) /\
  (forall gt_opts, (forall o, gt_opts <> GtEnum o) ->
     data_from_vcf_type "GT" record "fmt" gt_opts g
     = inr (map VInt (nth (N.to_nat (tape g (cursor g) mod 3))
                        [[0; 0]; [0; 1]; [1; 1]] [0; 0]),
            advance g)).
Proof.
  intros Hfd Hal. split.
  - rewrite (data_from_vcf_type_GT record _ fd g Hfd).
    unfold genotype. rewrite Hal. cbn [gt_is length].
    change (Z.of_nat 2) with 2.
    change (combinations_with_replacement (range 1 2) (2 - 1))
      with (@ret (list (list Z)) [[1]]).
    unfold bind at 1. unfold bind at 1. unfold ret at 1.
    unfold bind at 1. rewrite random_choice_singleton.
    rewrite random_shuffle_pair. reflexivity.
  - intros gt_opts Hother.
    rewrite (data_from_vcf_type_GT record _ fd g Hfd).
    unfold genotype. rewrite Hal. cbn [length].
    assert (forall o, gt_is gt_opts o = false) as Hno.
    { intros o. destruct gt_opts as [| o' |]; [reflexivity | | reflexivity].
      exfalso. apply (Hother o'). reflexivity. }
    rewrite !Hno. change (Z.of_nat 2) with 2.
    change (combinations_with_replacement (range 0 2) 2)
      with (@ret (list (list Z)) [[0; 0]; [0; 1]; [1; 1]]).
    reflexivity.
Qed.

Lemma biallelic_genotypes_witness :
  data_from_vcf_type "GT" demo_record "fmt" (GtEnum HET) (constant_rng 4)
  = inr (map VInt (if (tape (constant_rng 4) (S (cursor (constant_rng 4))) mod 2
                       =? 0)%N
                   then [1; 0] else [0; 1]),
         advance (advance (constant_rng 4))) /\
  (forall gt_opts, (forall o, gt_opts <> GtEnum o) ->
     data_from_vcf_type "GT" demo_record "fmt" gt_opts (constant_rng 4)
     = inr (map VInt (nth (N.to_nat (tape (constant_rng 4)
                                       (cursor (constant_rng 4)) mod 3))
                        [[0; 0]; [0; 1]; [1; 1]] [0; 0]),
            advance (constant_rng 4))).
Proof.
  apply (biallelic_genotypes demo_record (mkField (NumInt 1) TString)
           "A" "C" (constant_rng 4)); reflexivity.
Defined.

(** ** Further properties of the contig selector *)

Lemma matching_Some p cs g :
  matching (Some p) cs g = inr (List.filter (pattern_match p) cs, g).
Proof.
  induction cs as [| c cs IH]; [reflexivity |].
  cbn [matching List.filter]. unfold bind at 1. unfold method_match, ret at 1.
  unfold bind at 1. rewrite IH. unfold ret.
  destruct (pattern_match p c); reflexivity.
Qed.

Lemma assoc_Some_iff {V} key (m : list (string * V)) :
  In key (map fst m) <-> exists v, assoc key m = Some v.
Proof.
  induction m as [| [k w] m IH]; simpl.
  - split; [intros [] | intros [v Hv]; discriminate Hv].
  - destruct (String.eqb k key) eqn:E.
    + apply String.eqb_eq in E. split; [eauto | auto].
    + apply String.eqb_neq in E. rewrite <- IH. tauto.
Qed.

Lemma elem_of_kept_names header exclude k :
  k ∈ kept_names header exclude <-> eligible header exclude k.
Proof.
  unfold kept_names, eligible. cbv zeta.
  set (names := list_to_set (map fst (contigs header)) : gset string).
  assert (forall x, x ∈ names <-> In x (map fst (contigs header))) as Hn.
  { intros x. unfold names. rewrite elem_of_list_to_set. apply list_elem_of_In. }
  destruct exclude as [p |].
  - assert (k ∈ (list_to_set (List.filter (pattern_match p) (elements names))
                  : gset string)
            <-> In k (map fst (contigs header)) /\ pattern_match p k = true) as Hf.
    { rewrite elem_of_list_to_set, list_elem_of_In, filter_In.
      rewrite <- list_elem_of_In, elem_of_elements, Hn. reflexivity. }
    rewrite elem_of_difference, Hn, Hf. split.
    + intros [Hk Hno]. split; [exact Hk |].
      intros q [= <-]. destruct (pattern_match p k); [| reflexivity].
      exfalso. apply Hno. split; [exact Hk | reflexivity].
    + intros [Hk Hno]. split; [exact Hk |].
      intros [_ Hm]. rewrite (Hno p eq_refl) in Hm. discriminate Hm.
  - rewrite Hn. split; [intros Hk; split; [exact Hk | discriminate] | tauto].
Qed.

(** The comprehension over the kept names finds every one of them. *)
Lemma getitems_spec {V} (m : list (string * V)) keys g :
  (forall k, In k keys -> In k (map fst m)) ->
  exists vs,
    getitems m keys g = inr (vs, g) /\
    length vs = length keys /\
    forall i k, keys !! i = Some k ->
      exists v, vs !! i = Some v /\ assoc k m = Some v.
Proof.
  induction keys as [| k keys IH]; intros Hin.
  - exists []. split; [reflexivity |]. split; [reflexivity |].
    intros i k Hk. rewrite lookup_nil in Hk. discriminate Hk.
  - destruct (proj1 (assoc_Some_iff k m) (Hin k (or_introl eq_refl))) as [v Hv].
    destruct IH as (vs & Hrun & Hlen & Hvs).
    { intros k' Hk'. apply Hin. right. exact Hk'. }
    exists (v :: vs). split; [| split].
    + cbn [getitems]. rewrite (bind_run _ _ _ _ _ (getitem_run m k id v g Hv)).
      rewrite (bind_run _ _ _ _ _ Hrun). reflexivity.
    + simpl. f_equal. exact Hlen.
    + intros [| i] k' Hk'.
      * injection Hk' as <-. exists v. split; [reflexivity | exact Hv].
      * apply Hvs. exact Hk'.
Qed.

(** [random_contig] without an include pattern, in one step. *)
Lemma random_contig_no_include header exclude g :
  random_contig header exclude None g
  = if (size (kept_names header exclude) =? 0)%nat then inl no_valid_contigs
    else bind (getitems (contigs header) (elements (kept_names header exclude)))
           random_choice g.
Proof.
  unfold random_contig, kept_names. destruct exclude as [p |].
  - cbn [is_not_None andb]. cbv zeta.
    unfold bind. rewrite matching_Some. unfold ret, raise. cbn beta iota.
    destruct (size _ =? 0)%nat; reflexivity.
  - cbn [is_not_None andb]. cbv zeta.
    unfold bind, ret, raise. cbn beta iota.
    destruct (size _ =? 0)%nat; reflexivity.
Qed.

Lemma kept_names_keys header exclude k :
  In k (elements (kept_names header exclude)) -> In k (map fst (contigs header)).
Proof.
  rewrite <- list_elem_of_In, elem_of_elements, elem_of_kept_names.
  intros [Hk _]. exact Hk.
Qed.

(** X10: without an include pattern, a contig that [random_contig] returns
    is the header's entry for a name the exclude pattern does not match,
    and it costs one draw. *)
Theorem random_contig_returns_eligible header exclude g c g' :
  random_contig header exclude None g = inr (c, g') ->
  g' = advance g /\
  exists k, eligible header exclude k /\ assoc k (contigs header) = Some c.
Proof.
  rewrite random_contig_no_include.
  destruct (size (kept_names header exclude) =? 0)%nat; [discriminate |].
  destruct (getitems_spec (contigs header)
              (elements (kept_names header exclude)) g
              (kept_names_keys header exclude)) as (vs & Hrun & Hlen & Hvs).
  rewrite (bind_run _ _ _ _ _ Hrun). intros Hc.
  destruct vs as [| d vs']; [discriminate Hc |].
  unfold random_choice, bind, randbelow, bind, next_raw, ret in Hc.
  injection Hc as <- <-. split; [reflexivity |].
  set (i := N.to_nat (tape g (cursor g) mod N.of_nat (length (d :: vs')))).
  assert (i < length (d :: vs'))%nat as Hi.
  { subst i.
    assert (tape g (cursor g) mod N.of_nat (length (d :: vs'))
            < N.of_nat (length (d :: vs')))%N
      by (apply N.mod_lt; simpl; lia).
    lia. }
  destruct (lookup_lt_is_Some_2 (elements (kept_names header exclude)) i)
    as [k Hk]; [rewrite <- Hlen; exact Hi |].
  destruct (Hvs i k Hk) as (v & Hv & Hassoc).
  exists k. split.
  - apply elem_of_kept_names, elem_of_elements, list_elem_of_lookup. eauto.
  - change (assoc k (contigs header) = Some (nth i (d :: vs') d)).
    rewrite (nth_lookup_Some _ _ d _ Hv). exact Hassoc.
Qed.

Lemma random_contig_returns_eligible_witness :
  advance (constant_rng 0) = advance (constant_rng 0) /\
  exists k,
    eligible demo_header (Some (literal "chr1")) k /\
    assoc k (contigs demo_header) = Some (mkContig "chr2" (Some 500%positive)).
Proof.
  apply (random_contig_returns_eligible demo_header (Some (literal "chr1"))
           (constant_rng 0)).
  vm_compute. reflexivity.
Defined.

(** X11: without an include pattern, [random_contig] returns a contig
    exactly when some name of the header escapes the exclude pattern;
    otherwise, as for a header without contigs, it raises the exception
    for too restrictive options, and nothing else. *)
Theorem random_contig_succeeds_iff_eligible header exclude g :
  ((exists k, eligible header exclude k) ->
   exists c, random_contig header exclude None g = inr (c, advance g)) /\
  (~ (exists k, eligible header exclude k) ->
   random_contig header exclude None g = inl no_valid_contigs).
Proof.
  rewrite random_contig_no_include.
  destruct (size (kept_names header exclude) =? 0)%nat eqn:Esize.
  - apply Nat.eqb_eq, size_empty_iff in Esize. split; [| reflexivity].
    intros [k Hk]. apply elem_of_kept_names in Hk.
    exfalso. apply (proj1 (elem_of_equiv_empty _) Esize k Hk).
  - apply Nat.eqb_neq in Esize. split.
    + intros _.
      destruct (getitems_spec (contigs header)
                  (elements (kept_names header exclude)) g
                  (kept_names_keys header exclude)) as (vs & Hrun & Hlen & _).
      rewrite (bind_run _ _ _ _ _ Hrun).
      destruct (random_choice_ok vs g) as (c & Hc & _).
      { intros ->. apply Esize. simpl in Hlen. symmetry. exact Hlen. }
      exists c. exact Hc.
    + intros Hnone. exfalso. apply Esize. apply size_empty_iff.
      apply elem_of_equiv_empty. intros k Hk.
      apply Hnone. exists k. apply elem_of_kept_names, Hk.
Qed.

Lemma random_contig_succeeds_iff_eligible_witness :
  (exists c, random_contig demo_header (Some (literal "chr1")) None
               (constant_rng 0) = inr (c, advance (constant_rng 0))) /\
  random_contig demo_header (Some (literal "chr")) None (constant_rng 0)
  = inl no_valid_contigs.
Proof.
  split.
  - apply (proj1 (random_contig_succeeds_iff_eligible demo_header
                    (Some (literal "chr1")) (constant_rng 0))).
    exists "chr2". split; [simpl; tauto |].
    intros p [= <-]. reflexivity.
  - apply (proj2 (random_contig_succeeds_iff_eligible demo_header
                    (Some (literal "chr")) (constant_rng 0))).
    intros (k & Hk & Hno). specialize (Hno _ eq_refl).
    simpl in Hk. destruct Hk as [<- | [<- | []]]; discriminate Hno.
Defined.

Lemma random_choice_at {A} (l : list A) i x :
  l !! i = Some x ->
  random_choice l (constant_rng (N.of_nat i))
  = inr (x, advance (constant_rng (N.of_nat i))).
Proof.
  intros Hi. pose proof (lookup_lt_Some _ _ _ Hi) as Hlt.
  destruct l as [| d l']; [simpl in Hlt; lia |].
  unfold random_choice, bind, randbelow, bind, next_raw, ret.
  cbn [constant_rng tape cursor].
  rewrite N.mod_small by lia. rewrite Nat2N.id.
  rewrite (nth_lookup_Some _ _ d _ Hi). reflexivity.
Qed.

(** X12: without an include pattern, every contig whose name the exclude
    pattern does not match can come out: some random source makes
    [random_contig] return the header's entry for it. *)
Theorem every_eligible_contig_is_reachable header exclude k c :
  eligible header exclude k ->
  assoc k (contigs header) = Some c ->
  exists g, random_contig header exclude None g = inr (c, advance g).
Proof.
  intros Hk Hc.
  apply elem_of_kept_names, elem_of_elements, list_elem_of_lookup in Hk
    as [i Hi].
  exists (constant_rng (N.of_nat i)).
  rewrite random_contig_no_include.
  destruct (size (kept_names header exclude) =? 0)%nat eqn:Esize.
  - apply Nat.eqb_eq in Esize. apply lookup_lt_Some in Hi.
    change (size (kept_names header exclude))
      with (length (elements (kept_names header exclude))) in Esize. lia.
  - destruct (getitems_spec (contigs header)
                (elements (kept_names header exclude))
                (constant_rng (N.of_nat i))
                (kept_names_keys header exclude)) as (vs & Hrun & _ & Hvs).
    rewrite (bind_run _ _ _ _ _ Hrun).
    destruct (Hvs i k Hi) as (v & Hv & Hassoc).
    assert (v = c) as -> by congruence.
    apply random_choice_at, Hv.
Qed.

Lemma every_eligible_contig_is_reachable_witness :
  exists g,
    random_contig demo_header (Some (literal "chr1")) None g
    = inr (mkContig "chr2" (Some 500%positive), advance g).
Proof.
  apply (every_eligible_contig_is_reachable demo_header
           (Some (literal "chr1")) "chr2" (mkContig "chr2" (Some 500%positive))).
  - split; [simpl; tauto |]. intros p [= <-]. reflexivity.
  - reflexivity.
Defined.

(** ** Further properties of the record assembler *)

Lemma assoc_setitem {V} k (v : V) m k' :
  assoc k' (setitem k v m) = if String.eqb k k' then Some v else assoc k' m.
Proof.
  induction m as [| [a w] m IH].
  - simpl. destruct (String.eqb k k'); reflexivity.
  - cbn [setitem]. destruct (String.eqb a k) eqn:Eak.
    + apply String.eqb_eq in Eak. subst a. cbn [assoc].
      destruct (String.eqb k k'); reflexivity.
    + cbn [assoc]. rewrite IH.
      destruct (String.eqb a k') eqn:Eak'; [| reflexivity].
      apply String.eqb_eq in Eak'. subst a.
      destruct (String.eqb k k') eqn:Ekk; [| reflexivity].
      apply String.eqb_eq in Ekk. subst k'.
      rewrite String.eqb_refl in Eak. discriminate Eak.
Qed.

Lemma sample_value_set_sample record s f v s' f' :
  sample_value (set_sample record s f v) s' f'
  = if String.eqb s s' && String.eqb f f' then Some v
    else sample_value record s' f'.
Proof.
  unfold sample_value, set_sample. cbn [rec_samples].
  rewrite assoc_setitem.
  destruct (String.eqb s s') eqn:Es; [| reflexivity].
  apply String.eqb_eq in Es. subst s'. rewrite assoc_setitem.
  destruct (String.eqb f f'); [reflexivity |].
  destruct (assoc s (rec_samples record)); reflexivity.
Qed.

(** The synthesizer reads the header and the alleles of a record only. *)
Lemma data_from_vcf_type_site key r1 r2 section gt_opts g :
  same_site r1 r2 ->
  data_from_vcf_type key r2 section gt_opts g
  = data_from_vcf_type key r1 section gt_opts g.
Proof.
  intros (Hh & _ & Ha & _).
  unfold data_from_vcf_type, calc_multiplicity, section_fields, genotype, alts.
  rewrite Hh, Ha. reflexivity.
Qed.

Lemma same_site_trans r1 r2 r3 :
  same_site r1 r2 -> same_site r2 r3 -> same_site r1 r3.
Proof. unfold same_site. intros (? & ? & ? & ?) (? & ? & ? & ?). repeat split; congruence. Qed.

Lemma same_site_refl r : same_site r r.
Proof. repeat split. Qed.

(** What the INFO loop leaves: the site and the samples untouched, a value
    for each key visited but END, and every new value the result of a
    synthesis for its key. *)
Lemma add_info_spec keys gt_opts record g record' g' :
  add_info keys gt_opts record g = inr (record', g') ->
  same_site record record' /\
  rec_samples record' = rec_samples record /\
  (forall key,
     is_Some (assoc key (rec_info record')) <->
     is_Some (assoc key (rec_info record)) \/ (In key keys /\ key <> "END")) /\
  (forall key v,
     assoc key (rec_info record') = Some v ->
     assoc key (rec_info record) = Some v \/
     exists g0 g1, data_from_vcf_type key record "info" gt_opts g0 = inr (v, g1)).
Proof.
  revert record g. induction keys as [| k rest IH]; intros record g H.
  - inv_ret H. split; [apply same_site_refl |]. split; [reflexivity |].
    split; [intros key; simpl; tauto | intros key v Hv; left; exact Hv].
  - cbn [add_info] in H. destruct (String.eqb k "END") eqn:Ek.
    + apply String.eqb_eq in Ek. subst k.
      destruct (IH _ _ H) as (Hsite & Hsam & Hkeys & Hprov).
      split; [exact Hsite |]. split; [exact Hsam |]. split; [| exact Hprov].
      intros key. rewrite Hkeys. simpl. intuition congruence.
    + apply String.eqb_neq in Ek. inv_bind H. rename a into v.
      destruct (IH _ _ H) as (Hsite & Hsam & Hkeys & Hprov).
      assert (same_site record (set_info record k v)) as Hstep
        by (repeat split).
      split; [exact (same_site_trans _ _ _ Hstep Hsite) |].
      split; [rewrite Hsam; reflexivity |]. split.
      * intros key. rewrite Hkeys. cbn [set_info rec_info].
        rewrite assoc_setitem. destruct (String.eqb k key) eqn:Ekk.
        -- apply String.eqb_eq in Ekk. subst key.
           split; [intros _; right; split; [left; reflexivity | exact Ek] |].
           intros _. left. eexists. reflexivity.
        -- apply String.eqb_neq in Ekk. simpl. intuition congruence.
      * intros key w Hw. destruct (Hprov key w Hw) as [Hold | (g2 & g3 & Hrun)].
        -- cbn [set_info rec_info] in Hold. rewrite assoc_setitem in Hold.
           destruct (String.eqb k key) eqn:Ekk; [| left; exact Hold].
           apply String.eqb_eq in Ekk. subst key. injection Hold as <-.
           right. eauto.
        -- right. exists g2, g3.
           rewrite <- (data_from_vcf_type_site key record _ "info" gt_opts g2 Hstep).
           exact Hrun.
Qed.

Lemma add_formats_spec sample keys gt_opts record g record' g' :
  add_formats sample keys gt_opts record g = inr (record', g') ->
  same_site record record' /\
  rec_info record' = rec_info record /\
  (forall s f,
     is_Some (sample_value record' s f) <->
     is_Some (sample_value record s f) \/ (s = sample /\ In f keys)) /\
  (forall s f v,
     sample_value record' s f = Some v ->
     sample_value record s f = Some v \/
     exists g0 g1, data_from_vcf_type f record "fmt" gt_opts g0 = inr (v, g1)).
Proof.
  revert record g. induction keys as [| k rest IH]; intros record g H.
  - inv_ret H. split; [apply same_site_refl |]. split; [reflexivity |].
    split; [intros s f; simpl; tauto | intros s f v Hv; left; exact Hv].
  - cbn [add_formats] in H. inv_bind H. rename a into v.
    destruct (IH _ _ H) as (Hsite & Hinfo & Hkeys & Hprov).
    assert (same_site record (set_sample record sample k v)) as Hstep
      by (repeat split).
    split; [exact (same_site_trans _ _ _ Hstep Hsite) |].
    split; [rewrite Hinfo; reflexivity |]. split.
    + intros s f. rewrite Hkeys, sample_value_set_sample.
      destruct (String.eqb sample s && String.eqb k f) eqn:E.
      * apply andb_true_iff in E as [Es Ef].
        apply String.eqb_eq in Es, Ef. subst s f.
        split; [intros _; right; split; [reflexivity | left; reflexivity] |].
        intros _. left. eexists. reflexivity.
      * apply andb_false_iff in E. simpl.
        split; [tauto |].
        intros [Hold | [-> [-> | Hin]]]; [tauto | | tauto].
        rewrite !String.eqb_refl in E. destruct E; discriminate.
    + intros s f w Hw. destruct (Hprov s f w Hw) as [Hold | (g2 & g3 & Hrun)].
      * rewrite sample_value_set_sample in Hold.
        destruct (String.eqb sample s && String.eqb k f) eqn:E; [| left; exact Hold].
        apply andb_true_iff in E as [_ Ef]. apply String.eqb_eq in Ef. subst f.
        injection Hold as <-. right. eauto.
      * right. exists g2, g3.
        rewrite <- (data_from_vcf_type_site f record _ "fmt" gt_opts g2 Hstep).
        exact Hrun.
Qed.

Lemma add_samples_spec names fmt_keys gt_opts record g record' g' :
  add_samples names fmt_keys gt_opts record g = inr (record', g') ->
  same_site record record' /\
  rec_info record' = rec_info record /\
  (forall s f,
     is_Some (sample_value record' s f) <->
     is_Some (sample_value record s f) \/ (In s names /\ In f fmt_keys)) /\
  (forall s f v,
     sample_value record' s f = Some v ->
     sample_value record s f = Some v \/
     exists g0 g1, data_from_vcf_type f record "fmt" gt_opts g0 = inr (v, g1)).
Proof.
  revert record g. induction names as [| n rest IH]; intros record g H.
  - inv_ret H. split; [apply same_site_refl |]. split; [reflexivity |].
    split; [intros s f; simpl; tauto | intros s f v Hv; left; exact Hv].
  - cbn [add_samples] in H. inv_bind H. rename a into r1.
    destruct (add_formats_spec _ _ _ _ _ _ _ H0) as (Hs1 & Hi1 & Hk1 & Hp1).
    destruct (IH _ _ H) as (Hs2 & Hi2 & Hk2 & Hp2).
    split; [exact (same_site_trans _ _ _ Hs1 Hs2) |].
    split; [congruence |]. split.
    + intros s f. rewrite Hk2, Hk1. simpl. intuition congruence.
    + intros s f v Hv. destruct (Hp2 s f v Hv) as [Hold | (g2 & g3 & Hrun)].
      * apply Hp1, Hold.
      * right. exists g2, g3.
        rewrite <- (data_from_vcf_type_site f record r1 "fmt" gt_opts g2 Hs1).
        exact Hrun.
Qed.

Lemma random_randint_inr a b g x g' :
  random_randint a b g = inr (x, g') -> a <= x <= b /\ g' = advance g.
Proof.
  unfold random_randint. destruct (b <? a) eqn:E; [discriminate |].
  apply Z.ltb_ge in E.
  unfold bind, randbelow, bind, next_raw, ret. intros [= <- <-].
  split; [| reflexivity].
  assert (tape g (cursor g) mod Z.to_N (b - a + 1) < Z.to_N (b - a + 1))%N as H
    by (apply N.mod_lt; lia).
  revert H. generalize (tape g (cursor g) mod Z.to_N (b - a + 1))%N.
  intros r H. lia.
Qed.

Lemma samples_of_new_record header c al st :
  map fst (rec_samples (new_record header c al st)) = samples header.
Proof.
  cbn [new_record rec_samples]. induction (samples header) as [| s l IH];
    [reflexivity | simpl; f_equal; exact IH].
Qed.

Lemma sample_value_new_record header c al st s f :
  sample_value (new_record header c al st) s f = None.
Proof.
  unfold sample_value. cbn [new_record rec_samples].
  induction (samples header) as [| s0 l IH]; [reflexivity |].
  cbn [map assoc]. destruct (String.eqb s0 s); [reflexivity | exact IH].
Qed.

(** The steps of a successful [generate_record], one after the other. *)
Lemma generate_record_steps header exclude include gt_opts g record g' :
  generate_record header exclude include gt_opts g = inr (record, g') ->
  exists c g1 st r1 g3,
    random_contig header exclude include g = inr (c, g1) /\
    (exists len, length_ c = Some len /\ 1 <= st <= Z.pos len) /\
    add_info (map fst (info header)) gt_opts
      (new_record header (name c)
         [base_of_draw (tape g1 (cursor g1));
          base_of_draw (tape g1 (S (cursor g1)))] st)
      (advance (advance (advance g1))) = inr (r1, g3) /\
    add_samples (samples header) (map fst (formats header)) gt_opts r1 g3
    = inr (record, g').
Proof.
  intros H. unfold generate_record in H.
  apply bind_inr in H as (c & g1 & Hc & H).
  rewrite (bind_run _ _ _ _ _ (random_base_run g1)) in H.
  rewrite (bind_run _ _ _ _ _ (random_base_run (advance g1))) in H.
  apply bind_inr in H as (st & g2 & Hst & H).
  unfold randint_1_to in Hst.
  destruct (length_ c) as [len |] eqn:Hlen; [| discriminate Hst].
  apply random_randint_inr in Hst as [Hst ->].
  apply bind_inr in H as (r1 & g3 & Hinfo & H).
  destruct (add_info_spec _ _ _ _ _ _ Hinfo) as (_ & Hsam & _).
  rewrite Hsam, samples_of_new_record in H.
  exists c, g1, st, r1, g3.
  split; [exact Hc |]. split; [exists len; split; [exact Hlen | exact Hst] |].
  split; [exact Hinfo | exact H].
Qed.

(** X13: a record that [generate_record] returns is over the given header,
    on the contig the selector returned, which has a length, at a start
    from 1 to that length. *)
Theorem generate_record_site hdr exclude include gt_opts g record g' :
  generate_record hdr exclude include gt_opts g = inr (record, g') ->
  exists c g1 len,
    random_contig hdr exclude include g = inr (c, g1) /\
    header record = hdr /\
    contig record = name c /\
    length_ c = Some len /\
    1 <= start record <= Z.pos len.
Proof.
  intros H.
  destruct (generate_record_steps _ _ _ _ _ _ _ H)
    as (c & g1 & st & r1 & g3 & Hc & (len & Hlen & Hst) & Hinfo & Hsam).
  destruct (add_info_spec _ _ _ _ _ _ Hinfo) as ((Hh1 & Hc1 & _ & Hs1) & _).
  destruct (add_samples_spec _ _ _ _ _ _ _ Hsam) as ((Hh2 & Hc2 & _ & Hs2) & _).
  exists c, g1, len. split; [exact Hc |].
  split; [rewrite Hh2, Hh1; reflexivity |].
  split; [rewrite Hc2, Hc1; reflexivity |].
  split; [exact Hlen |].
  rewrite Hs2, Hs1. exact Hst.
Qed.

Lemma generate_record_plain_run :
  generate_record plain_header None None (GtEnum HOM_REF) (constant_rng 1)
  = inr (plain_record, mkRng (fun _ => 1%N) 9).
Proof. vm_compute. reflexivity. Qed.

Lemma generate_record_site_witness :
  exists c g1 len,
    random_contig plain_header None None (constant_rng 1) = inr (c, g1) /\
    header plain_record = plain_header /\
    contig plain_record = name c /\
    length_ c = Some len /\
    1 <= start plain_record <= Z.pos len.
Proof.
  apply (generate_record_site plain_header None None (GtEnum HOM_REF)
           (constant_rng 1) plain_record (mkRng (fun _ => 1%N) 9)).
  vm_compute. reflexivity.
Defined.

(** X14: when the selector returns a contig without a length (its header
    line gives none), [random.randint(1, None)] raises [TypeError] and no
    record is assembled. *)
Theorem generate_record_unsized_contig hdr exclude include gt_opts g c g1 :
  random_contig hdr exclude include g = inr (c, g1) ->
  length_ c = None ->
  generate_record hdr exclude include gt_opts g = inl TypeError.
Proof.
  intros Hc Hlen. unfold generate_record.
  rewrite (bind_run _ _ _ _ _ Hc).
  rewrite (bind_run _ _ _ _ _ (random_base_run g1)).
  rewrite (bind_run _ _ _ _ _ (random_base_run (advance g1))).
  apply bind_fail. rewrite Hlen. reflexivity.
Qed.

Lemma generate_record_unsized_contig_witness :
  generate_record unsized_contig_header None None GtNone (constant_rng 0)
  = inl TypeError.
Proof.
  apply (generate_record_unsized_contig unsized_contig_header None None GtNone
           (constant_rng 0) (mkContig "chrU" None) (advance (constant_rng 0)));
    [vm_compute; reflexivity | reflexivity].
Defined.

(** X15: a record that [generate_record] returns holds an INFO value for
    exactly the INFO keys of the header other than END. *)
Theorem generate_record_info_keys hdr exclude include gt_opts g record g' :
  generate_record hdr exclude include gt_opts g = inr (record, g') ->
  forall key,
    is_Some (assoc key (rec_info record)) <->
    In key (map fst (info hdr)) /\ key <> "END".
Proof.
  intros H key.
  destruct (generate_record_steps _ _ _ _ _ _ _ H)
    as (c & g1 & st & r1 & g3 & _ & _ & Hinfo & Hsam).
  destruct (add_info_spec _ _ _ _ _ _ Hinfo) as (_ & _ & Hkeys & _).
  destruct (add_samples_spec _ _ _ _ _ _ _ Hsam) as (_ & Hi & _).
  rewrite Hi, Hkeys. cbn [new_record rec_info assoc].
  split; [intros [[v Hv] | Hk]; [discriminate Hv | exact Hk] | tauto].
Qed.

Lemma generate_record_info_keys_witness :
  (is_Some (assoc "DP" (rec_info plain_record)) <->
   In "DP" (map fst (info plain_header)) /\ "DP" <> "END") /\
  (is_Some (assoc "END" (rec_info plain_record)) <->
   In "END" (map fst (info plain_header)) /\ "END" <> "END").
Proof.
  split;
    apply (generate_record_info_keys plain_header None None (GtEnum HOM_REF)
             (constant_rng 1) plain_record (mkRng (fun _ => 1%N) 9));
    vm_compute; reflexivity.
Defined.

(** X16: a record that [generate_record] returns holds a value for a sample
    and a key exactly when the sample is one of the header and the key one
    of its FORMAT keys. *)
Theorem generate_record_sample_keys hdr exclude include gt_opts g record g' :
  generate_record hdr exclude include gt_opts g = inr (record, g') ->
  forall s f,
    is_Some (sample_value record s f) <->
    In s (samples hdr) /\ In f (map fst (formats hdr)).
Proof.
  intros H s f.
  destruct (generate_record_steps _ _ _ _ _ _ _ H)
    as (c & g1 & st & r1 & g3 & _ & _ & Hinfo & Hsam).
  destruct (add_info_spec _ _ _ _ _ _ Hinfo) as (_ & Hrs & _).
  destruct (add_samples_spec _ _ _ _ _ _ _ Hsam) as (_ & _ & Hkeys & _).
  rewrite Hkeys. unfold sample_value at 1. rewrite Hrs.
  fold (sample_value (new_record hdr (name c)
          [base_of_draw (tape g1 (cursor g1));
           base_of_draw (tape g1 (S (cursor g1)))] st) s f).
  rewrite sample_value_new_record.
  split; [intros [[v Hv] | Hk]; [discriminate Hv | exact Hk] | tauto].
Qed.

Lemma generate_record_sample_keys_witness :
  is_Some (sample_value plain_record "S2" "AD") <->
  In "S2" (samples plain_header) /\ In "AD" (map fst (formats plain_header)).
Proof.
  apply (generate_record_sample_keys plain_header None None (GtEnum HOM_REF)
           (constant_rng 1) plain_record (mkRng (fun _ => 1%N) 9)).
  vm_compute. reflexivity.
Defined.

Lemma data_from_vcf_type_declared key record section gt_opts g v g' :
  data_from_vcf_type key record section gt_opts g = inr (v, g') ->
  exists fd, assoc key (section_fields record section) = Some fd.
Proof.
  unfold data_from_vcf_type. intros H.
  apply bind_inr in H as (m & g1 & _ & H).
  apply bind_inr in H as (ty & g2 & Hty & _).
  apply getitem_inr in Hty as (fd & Hfd & _). eauto.
Qed.

(** The genotype of a biallelic record is one of the outcomes of the mode. *)
Lemma genotype_of_pair record ref alt gt_opts g v g' :
  alleles record = [ref; alt] ->
  genotype record gt_opts g = inr (v, g') ->
  In v (biallelic_outcomes gt_opts).
Proof.
  intros Hal. unfold genotype. rewrite Hal. cbn [length].
  change (Z.of_nat 2) with 2.
  assert (forall d : N,
             In (map VInt (nth (N.to_nat d) [[0; 0]; [0; 1]; [1; 1]] [0; 0]))
                [[VInt 0; VInt 0]; [VInt 0; VInt 1]; [VInt 1; VInt 1]]) as Hany.
  { intros d. destruct (N.to_nat d) as [| [| [| [| n]]]]; simpl; auto. }
  assert (bind (combinations_with_replacement (range 0 2) 2) random_choice g
          = inr (nth (N.to_nat (tape g (cursor g) mod 3))
                   [[0; 0]; [0; 1]; [1; 1]] [0; 0], advance g)) as Huni
    by reflexivity.
  destruct gt_opts as [| [| |] |]; cbn [gt_is biallelic_outcomes].
  - unfold bind in Huni |- *. cbn beta. rewrite Huni.
    intros [= <- <-]. apply Hany.
  - intros [= <- <-]. left. reflexivity.
  - intros [= <- <-]. left. reflexivity.
  - change (combinations_with_replacement (range 1 2) (2 - 1))
      with (@ret (list (list Z)) [[1]]).
    unfold bind at 1. unfold bind at 1. unfold ret at 1.
    unfold bind at 1. rewrite random_choice_singleton.
    rewrite random_shuffle_pair. intros [= <- <-].
    match goal with
    | |- context [if ?b then _ else _] => destruct b
    end; simpl; auto.
  - unfold bind in Huni |- *. cbn beta. rewrite Huni.
    intros [= <- <-]. apply Hany.
Qed.

(** X18: in a record that [generate_record] returns, the genotype of every
    sample is one of the outcomes of the mode on two alleles: (0, 0) under
    HOM_REF, (1, 1) under HOM_ALT, (0, 1) or (1, 0) under HET, and (0, 0),
    (0, 1) or (1, 1) otherwise. *)
Theorem generated_genotypes_follow_mode hdr exclude include gt_opts g record g' :
  generate_record hdr exclude include gt_opts g = inr (record, g') ->
  forall s v,
    sample_value record s "GT" = Some v -> In v (biallelic_outcomes gt_opts).
Proof.
  intros H s v Hv.
  destruct (generate_record_steps _ _ _ _ _ _ _ H)
    as (c & g1 & st & r1 & g3 & _ & _ & Hinfo & Hsam).
  destruct (add_info_spec _ _ _ _ _ _ Hinfo) as (Hs1 & Hrs & _).
  destruct (add_samples_spec _ _ _ _ _ _ _ Hsam) as (_ & _ & _ & Hp2).
  destruct (Hp2 s "GT" v Hv) as [Hold | (g0 & g2 & Hrun)].
  - unfold sample_value in Hold. rewrite Hrs in Hold.
    fold (sample_value (new_record hdr (name c)
            [base_of_draw (tape g1 (cursor g1));
             base_of_draw (tape g1 (S (cursor g1)))] st) s "GT") in Hold.
    rewrite sample_value_new_record in Hold. discriminate Hold.
  - destruct (data_from_vcf_type_declared _ _ _ _ _ _ _ Hrun) as (fd & Hfd).
    rewrite (data_from_vcf_type_GT r1 gt_opts fd g0 Hfd) in Hrun.
    destruct Hs1 as (_ & _ & Hal & _).
    apply (genotype_of_pair r1 _ _ gt_opts g0 v g2 Hal Hrun).
Qed.

Lemma generated_genotypes_follow_mode_witness :
  In [VInt 0; VInt 0] (biallelic_outcomes (GtEnum HOM_REF)).
Proof.
  apply (generated_genotypes_follow_mode plain_header None None
           (GtEnum HOM_REF) (constant_rng 1) plain_record
           (mkRng (fun _ => 1%N) 9) generate_record_plain_run "S1").
  reflexivity.
Defined.

(** ** The generation driver *)

Lemma generate_record_well_formed hdr exclude include gt_opts g record g' :
  generate_record hdr exclude include gt_opts g = inr (record, g') ->
  well_formed hdr record.
Proof.
  intros H.
  destruct (generate_record_steps _ _ _ _ _ _ _ H)
    as (c & g1 & st & r1 & g3 & _ & (len & _ & Hst) & Hinfo & Hsam).
  destruct (add_info_spec _ _ _ _ _ _ Hinfo) as ((Hh1 & _ & Ha1 & Hs1) & _).
  destruct (add_samples_spec _ _ _ _ _ _ _ Hsam) as ((Hh2 & _ & Ha2 & Hs2) & _).
  unfold well_formed. rewrite Hh2, Hh1, Ha2, Ha1, Hs2, Hs1.
  cbn [new_record header alleles start].
  split; [reflexivity |]. split; [reflexivity |]. split; [| lia].
  constructor; [apply base_of_draw_in_bases |].
  constructor; [apply base_of_draw_in_bases | constructor].
Qed.

(** The loop only appends: the records written first stay, and what is
    appended does not depend on them. *)
Lemma generate_loop_app n hdr exclude include gt_opts written g :
  generate_loop n hdr exclude include gt_opts written g
  = (written ++ fst (generate_loop n hdr exclude include gt_opts [] g),
     snd (generate_loop n hdr exclude include gt_opts [] g)).
Proof.
  revert written g. induction n as [| n IH]; intros written g.
  - simpl. rewrite app_nil_r. reflexivity.
  - cbn [generate_loop].
    destruct (generate_record hdr exclude include gt_opts g) as [e | [r g1]].
    + simpl. rewrite app_nil_r. reflexivity.
    + rewrite (IH (written ++ [r])), (IH ([] ++ [r])). simpl.
      rewrite <- app_assoc. reflexivity.
Qed.

Lemma generate_loop_count n hdr exclude include gt_opts g :
  match snd (generate_loop n hdr exclude include gt_opts [] g) with
  | inr _ => length (fst (generate_loop n hdr exclude include gt_opts [] g)) = n
  | inl _ => (length (fst (generate_loop n hdr exclude include gt_opts [] g)) < n)%nat
  end.
Proof.
  revert g. induction n as [| n IH]; intros g; [reflexivity |].
  cbn [generate_loop].
  destruct (generate_record hdr exclude include gt_opts g) as [e | [r g1]].
  - simpl. lia.
  - rewrite generate_loop_app. cbn [fst snd]. specialize (IH g1).
    destruct (snd (generate_loop n hdr exclude include gt_opts [] g1));
      rewrite length_app; simpl; lia.
Qed.

(** X19: [generate_data] writes exactly the requested number of records
    when it ends without an exception, fewer when one is raised, and none,
    without an exception or a draw, for a count of 0 or below. *)
Theorem generate_data_count hdr num_variants exclude include gt_opts g :
  (num_variants <= 0 ->
   generate_data hdr num_variants exclude include gt_opts g = ([], inr g)) /\
  match snd (generate_data hdr num_variants exclude include gt_opts g) with
  | inr _ =>
      length (fst (generate_data hdr num_variants exclude include gt_opts g))
      = Z.to_nat num_variants
  | inl _ =>
      (length (fst (generate_data hdr num_variants exclude include gt_opts g))
       < Z.to_nat num_variants)%nat
  end.
Proof.
  split.
  - intros Hn. unfold generate_data.
    replace (Z.to_nat num_variants) with 0%nat by lia. reflexivity.
  - apply generate_loop_count.
Qed.

Lemma generate_data_count_witness :
  generate_data plain_header 0 None None GtNone (constant_rng 0)
  = ([], inr (constant_rng 0)).
Proof.
  apply (proj1 (generate_data_count plain_header 0 None None GtNone
                  (constant_rng 0))).
  lia.
Defined.

(** X20: with both patterns set, a run for at least one record writes
    nothing and raises the [ValueError]; a run for no record ends normally,
    the patterns being looked at only when a record is assembled. *)
Theorem generate_data_both_patterns hdr num_variants exclude include gt_opts g :
  (1 <= num_variants ->
   generate_data hdr num_variants (Some exclude) (Some include) gt_opts g
   = ([], inl (ValueError
        "Only one of contig_exclude and contig_include should be set!"))) /\
  (num_variants <= 0 ->
   generate_data hdr num_variants (Some exclude) (Some include) gt_opts g
   = ([], inr g)).
Proof.
  split; intros Hn; unfold generate_data.
  - destruct (Z.to_nat num_variants) as [| n] eqn:En; [lia |]. reflexivity.
  - replace (Z.to_nat num_variants) with 0%nat by lia. reflexivity.
Qed.

Lemma generate_data_both_patterns_witness :
  generate_data plain_header 3 (Some (literal "chr1")) (Some (literal "chr2"))
    GtNone (constant_rng 0)
  = ([], inl (ValueError
       "Only one of contig_exclude and contig_include should be set!")) /\
  generate_data plain_header 0 (Some (literal "chr1")) (Some (literal "chr2"))
    GtNone (constant_rng 0)
  = ([], inr (constant_rng 0)).
Proof.
  split.
  - apply (proj1 (generate_data_both_patterns plain_header 3 (literal "chr1")
                    (literal "chr2") GtNone (constant_rng 0))). lia.
  - apply (proj2 (generate_data_both_patterns plain_header 0 (literal "chr1")
                    (literal "chr2") GtNone (constant_rng 0))). lia.
Defined.

(** X21: with an include pattern alone, a run for at least one record never
    writes any: the first assembly raises [AttributeError], or the
    exception for too restrictive options when the header has no contig. *)
Theorem generate_data_include_only hdr num_variants include gt_opts g :
  1 <= num_variants ->
  generate_data hdr num_variants None (Some include) gt_opts g
  = ([], inl (match contigs hdr with
              | [] => no_valid_contigs
              | _ :: _ => AttributeError
              end)).
Proof.
  intros Hn. unfold generate_data.
  destruct (Z.to_nat num_variants) as [| n] eqn:En; [lia |].
  cbn [generate_loop]. unfold generate_record.
  rewrite (bind_fail _ _ _ _ (random_contig_include_only hdr include g)).
  reflexivity.
Qed.

Lemma generate_data_include_only_witness :
  generate_data plain_header 2 None (Some (literal "chr")) GtNone (constant_rng 0)
  = ([], inl AttributeError).
Proof.
  apply (generate_data_include_only plain_header 2 (literal "chr") GtNone
           (constant_rng 0)).
  lia.
Defined.

Lemma generate_loop_well_formed n hdr exclude include gt_opts g :
  Forall (well_formed hdr)
    (fst (generate_loop n hdr exclude include gt_opts [] g)).
Proof.
  revert g. induction n as [| n IH]; intros g; [constructor |].
  cbn [generate_loop].
  destruct (generate_record hdr exclude include gt_opts g) as [e | [r g1]] eqn:E;
    [constructor |].
  rewrite generate_loop_app. cbn [fst].
  constructor; [apply (generate_record_well_formed _ _ _ _ _ _ _ E) | apply IH].
Qed.

(** X22: every record [generate_data] writes, in a run that ends with an
    exception too, is over the header, has two alleles taken from A, T, C,
    G, N and starts at 1 or later. *)
Theorem generate_data_writes_well_formed hdr num_variants exclude include gt_opts g :
  Forall (well_formed hdr)
    (fst (generate_data hdr num_variants exclude include gt_opts g)).
Proof. apply generate_loop_well_formed. Qed.

(** X24: the conversion behind [--gt-opts] inverts [value]: it returns a
    member exactly on the value of that member, and a [ValueError] on every
    other string. *)
Theorem GenotypeOption_round_trip :
  (forall o, GenotypeOption_of_value (GenotypeOption_value o) = inr o) /\
  (forall s o, GenotypeOption_of_value s = inr o -> s = GenotypeOption_value o) /\
  (forall s, (forall o, s <> GenotypeOption_value o) ->
     exists msg, GenotypeOption_of_value s = inl (ValueError msg)).
Proof.
  split; [| split].
  - intros [| |]; reflexivity.
  - intros s o. unfold GenotypeOption_of_value.
    destruct (String.eqb s "hom-ref") eqn:E1;
      [apply String.eqb_eq in E1; intros [= <-]; exact E1 |].
    destruct (String.eqb s "hom-alt") eqn:E2;
      [apply String.eqb_eq in E2; intros [= <-]; exact E2 |].
    destruct (String.eqb s "het") eqn:E3;
      [apply String.eqb_eq in E3; intros [= <-]; exact E3 |].
    discriminate.
  - intros s Hs. unfold GenotypeOption_of_value.
    assert (String.eqb s "hom-ref" = false) as ->
      by (apply String.eqb_neq, (Hs HOM_REF)).
    assert (String.eqb s "hom-alt" = false) as ->
      by (apply String.eqb_neq, (Hs HOM_ALT)).
    assert (String.eqb s "het" = false) as ->
      by (apply String.eqb_neq, (Hs HET)).
    eexists. reflexivity.
Qed.

Lemma GenotypeOption_round_trip_witness :
  exists msg, GenotypeOption_of_value "hom-var" = inl (ValueError msg).
Proof.
  apply (proj2 (proj2 GenotypeOption_round_trip) "hom-var").
  intros [| |]; discriminate.
Defined.
